(** * bmp-to-logo: BMP to SSD1306 page-addressed byte array

    A shallow embedding of [src/logo/bmp-to-logo.py] and the properties
    of its packing step, of the C literal it prints and of its command
    line driver. *)

From Stdlib Require Import ZArith String Ascii List Bool Arith Lia.
From Stdlib Require Import Decimal DecimalString Hexadecimal.
Import ListNotations.

Local Open Scope string_scope.
Local Open Scope list_scope.
Local Open Scope nat_scope.

(** String concatenation, Python's [+] and f-string juxtaposition. *)
Infix "+++" := String.append (at level 60, right associativity).

(** ** Python values and exceptions *)

(** The exceptions that can reach the [except Exception] handler of
    [convert_bmp_to_ssd1306_array]; each carries the text that
    [str(e)] yields. *)
Inductive exception : Type :=
| IndexError (msg : string)
| ValueError (msg : string)
| OSError (msg : string).

Definition str_of_exception (e : exception) : string :=
  match e with
  | IndexError msg => msg
  | ValueError msg => msg
  | OSError msg => msg
  end.

(** A computation that returns a value or raises. *)
Inductive result (A : Type) : Type :=
| OK (a : A)
| Raise (e : exception).

Arguments OK {A} a.
Arguments Raise {A} e.

(** The two effects of the script, exceptions alone and exceptions with
    console output, share their sequencing notation. *)
Class Monad (M : Type -> Type) : Type := {
  ret : forall {A : Type}, A -> M A;
  bind : forall {A B : Type}, M A -> (A -> M B) -> M B
}.

Notation "x <- c ;; k" := (bind c (fun x => k))
  (at level 61, c at next level, right associativity).
Notation "c ;;; k" := (bind c (fun _ => k))
  (at level 61, right associativity).

#[global] Instance result_monad : Monad result := {
  ret := fun A a => OK a;
  bind := fun A B r k =>
    match r with
    | OK a => k a
    | Raise e => Raise e
    end
}.

(** [for i in r: s = body(i, s)] *)
Fixpoint for_in {M : Type -> Type} `{Monad M} {S : Type}
  (r : list nat) (body : nat -> S -> M S) (s : S) : M S :=
  match r with
  | [] => ret s
  | i :: r' => s' <- body i s ;; for_in r' body s'
  end.

(** [range(n)] *)
Definition range (n : nat) : list nat := seq 0 n.

(** ** Images

    After [img.convert('1')] the image is single-band: [size] is
    [(width, height)] and [im] holds the samples row by row, each sample
    0 (black) or 255 (white). *)
Record Image : Type := mkImage {
  size : nat * nat;
  im : list (list Z)
}.

(** The storage of an image agrees with its size. *)
Definition well_formed (img : Image) : bool :=
  let '(width, height) := size img in
  (length (im img) =? height) &&
  forallb (fun row => length row =? width) (im img).

(** Every sample of a mode ['1'] image is 0 or 255. *)
Definition mode_1 (img : Image) : bool :=
  forallb (forallb (fun v => (v =? 0)%Z || (v =? 255)%Z)) (im img).

(** [pixels[x, y]] on the access object of [img.load()]: an index outside
    the image raises [IndexError]. *)
Definition getitem (pixels : Image) (x y : nat) : result Z :=
  let '(width, height) := size pixels in
  if (x <? width) && (y <? height) then
    match nth_error (im pixels) y with
    | Some row =>
        match nth_error row x with
        | Some v => OK v
        | None => Raise (IndexError "image index out of range")
        end
    | None => Raise (IndexError "image index out of range")
    end
  else Raise (IndexError "image index out of range").

(** [byte_array.append(v)]: a [bytearray] holds integers of [range(0, 256)]
    only. *)
Definition append (byte_array : list Z) (v : Z) : result (list Z) :=
  if ((0 <=? v) && (v <? 256))%Z then OK (byte_array ++ [v])
  else Raise (ValueError "byte must be in range(0, 256)").

(** ** The packing step (lines 43-56) *)

(** Rows of one page; the constant 8 of [height // 8], [range(8)] and
    [page * 8]. *)
Definition pageRows : nat := 8.

(** [bit_value = 1 if pixel_value == 0 else 0] *)
Definition bit_value (pixel_value : Z) : Z :=
  if (pixel_value =? 0)%Z then 1%Z else 0%Z.

(** The body of [for bit in range(8)]. *)
Definition bit_body (pixels : Image) (height page x : nat)
  (bit : nat) (byte_value : Z) : result Z :=
  let y := page * 8 + bit in
  if y <? height then
    pixel_value <- getitem pixels x y ;;
    OK (Z.lor byte_value (Z.shiftl (bit_value pixel_value) (Z.of_nat bit)))
  else OK byte_value.

(** The body of [for x in range(width)]. *)
Definition column_body (pixels : Image) (height page : nat)
  (x : nat) (byte_array : list Z) : result (list Z) :=
  byte_value <- for_in (range 8) (bit_body pixels height page x) 0%Z ;;
  append byte_array byte_value.

(** The body of [for page in range(pages)]. *)
Definition page_body (pixels : Image) (width height : nat)
  (page : nat) (byte_array : list Z) : result (list Z) :=
  for_in (range width) (column_body pixels height page) byte_array.

(** Lines 34-56: from the converted image to [byte_array]. *)
Definition pack (img : Image) : result (list Z) :=
  let pixels := img in
  let '(width, height) := size img in
  let pages := height / 8 in
  for_in (range pages) (page_body pixels width height) [].

(** Grids used in examples. *)
Definition uniform (width height : nat) (v : Z) : Image :=
  mkImage (width, height) (repeat (repeat v width) height).

Definition all_dark : Image := uniform 128 64 0.
Definition all_light : Image := uniform 128 64 255.

(** ** String formatting *)

(** The line feed of the Python literals. *)
Definition nl : string := String (ascii_of_nat 10) EmptyString.

(** [str(n)] for a non-negative integer. *)
Definition str_of_nat (n : nat) : string :=
  NilEmpty.string_of_uint (Nat.to_uint n).

(** [str((w, h))] *)
Definition str_of_size (sz : nat * nat) : string :=
  "(" +++ str_of_nat (fst sz) +++ ", " +++ str_of_nat (snd sz) +++ ")".

(** Hexadecimal digits, upper case as the [X] presentation type asks. *)
Fixpoint upper_hex (u : Hexadecimal.uint) : string :=
  match u with
  | Hexadecimal.Nil => EmptyString
  | Hexadecimal.D0 u => String "0" (upper_hex u)
  | Hexadecimal.D1 u => String "1" (upper_hex u)
  | Hexadecimal.D2 u => String "2" (upper_hex u)
  | Hexadecimal.D3 u => String "3" (upper_hex u)
  | Hexadecimal.D4 u => String "4" (upper_hex u)
  | Hexadecimal.D5 u => String "5" (upper_hex u)
  | Hexadecimal.D6 u => String "6" (upper_hex u)
  | Hexadecimal.D7 u => String "7" (upper_hex u)
  | Hexadecimal.D8 u => String "8" (upper_hex u)
  | Hexadecimal.D9 u => String "9" (upper_hex u)
  | Hexadecimal.Da u => String "A" (upper_hex u)
  | Hexadecimal.Db u => String "B" (upper_hex u)
  | Hexadecimal.Dc u => String "C" (upper_hex u)
  | Hexadecimal.Dd u => String "D" (upper_hex u)
  | Hexadecimal.De u => String "E" (upper_hex u)
  | Hexadecimal.Df u => String "F" (upper_hex u)
  end.

(** [f'{b:02X}'] : upper-case hexadecimal, zero-padded to width 2, the
    sign counted in the width. *)
Definition format_02X (b : Z) : string :=
  if (b <? 0)%Z then "-" +++ upper_hex (N.to_hex_uint (Z.to_N (- b)))
  else
    let digits := upper_hex (N.to_hex_uint (Z.to_N b)) in
    if String.length digits <? 2 then "0" +++ digits else digits.

(** [f'0x{b:02X}'] *)
Definition hex_literal (b : Z) : string := "0x" +++ format_02X b.

(** [range(0, stop, step)] *)
Definition range_step (stop step : nat) : list nat :=
  map (fun k => k * step) (seq 0 ((stop + step - 1) / step)).

(** [l[i:j]] for [0 <= i <= j]. *)
Definition slice {A : Type} (l : list A) (i j : nat) : list A :=
  firstn (j - i) (skipn i l).

(** [s * n] *)
Fixpoint str_repeat (s : string) (n : nat) : string :=
  match n with
  | O => EmptyString
  | S n' => s +++ str_repeat s n'
  end.

(** [os.path.basename] of a POSIX path: what follows the last slash. *)
Fixpoint basename_from (seg p : string) : string :=
  match p with
  | EmptyString => seg
  | String c rest =>
      if Ascii.eqb c "/" then basename_from EmptyString rest
      else basename_from (seg +++ String c EmptyString) rest
  end.

Definition basename (p : string) : string := basename_from EmptyString p.

(** [str.lower], exact on ASCII text: a path with cased letters outside
    ASCII is left as it is. *)
Definition lower_ascii (c : ascii) : ascii :=
  let n := nat_of_ascii c in
  if (65 <=? n) && (n <=? 90) then ascii_of_nat (n + 32) else c.

Fixpoint lower (s : string) : string :=
  match s with
  | EmptyString => EmptyString
  | String c rest => String (lower_ascii c) (lower rest)
  end.

(** [s.endswith(suffix)] *)
Definition endswith (s suffix : string) : bool :=
  let n := String.length s in
  let m := String.length suffix in
  (m <=? n) && String.eqb (String.substring (n - m) m s) suffix.

(** ** The C literal (lines 58-78) *)

Definition bytes_per_line : nat := 16.

(** The comment block and the opening of the array. *)
Definition c_code_header (input_file array_name : string)
  (width height : nat) (byte_array : list Z) : string :=
  "// Автоматически сгенерированный файл из " +++ basename input_file +++ nl +++
  "// Размер изображения: " +++ str_of_nat width +++ "x" +++ str_of_nat height +++
  " пикселей" +++ nl +++
  "// Размер данных: " +++ str_of_nat (length byte_array) +++ " байт" +++ nl +++
  nl +++
  "#include <stdint.h>" +++ nl +++
  nl +++
  "const uint8_t " +++ array_name +++ "[] = {" +++ nl.

(** The body of [for i in range(0, len(byte_array), bytes_per_line)]. *)
Definition line_body (byte_array : list Z) (i : nat) (c_code : string) : string :=
  let line_bytes := slice byte_array i (i + bytes_per_line) in
  let hex_values := String.concat ", " (map hex_literal line_bytes) in
  let c_code := c_code +++ "    " +++ hex_values in
  let c_code :=
    if i + bytes_per_line <? length byte_array then c_code +++ "," else c_code in
  c_code +++ nl.

(** Lines 69-76: the rows of hexadecimal values appended to [c_code]. *)
Definition emit_lines (byte_array : list Z) (c_code : string) : string :=
  fold_left (fun c_code i => line_body byte_array i c_code)
    (range_step (length byte_array) bytes_per_line) c_code.

(** Lines 59-78. *)
Definition make_c_code (input_file array_name : string)
  (width height : nat) (byte_array : list Z) : string :=
  let c_code := c_code_header input_file array_name width height byte_array in
  let c_code := emit_lines byte_array c_code in
  c_code +++ "};" +++ nl +++ nl.

(** ** The process: console, exit status, exceptions *)

(** What the process has written so far; one entry per [print] call. *)
Record Console : Type := mkConsole {
  stdout : list string;
  stderr : list string
}.

Inductive outcome (A : Type) : Type :=
| Done (a : A)
| Raised (e : exception)
| Exited (status : Z).

Arguments Done {A} a.
Arguments Raised {A} e.
Arguments Exited {A} status.

Definition prog (A : Type) : Type := Console -> outcome A * Console.

#[global] Instance prog_monad : Monad prog := {
  ret := fun A a con => (Done a, con);
  bind := fun A B c k con =>
    match c con with
    | (Done a, con') => k a con'
    | (Raised e, con') => (Raised e, con')
    | (Exited status, con') => (Exited status, con')
    end
}.

(** [print(s)]: to standard output. *)
Definition print (s : string) : prog unit :=
  fun con => (Done tt, mkConsole (stdout con ++ [s]) (stderr con)).

(** [sys.exit(status)]: [SystemExit] is not an [Exception], no handler of
    the script catches it. *)
Definition sys_exit (status : Z) : prog unit :=
  fun con => (Exited status, con).

(** A computation without output, run inside the process. *)
Definition lift {A : Type} (r : result A) : prog A :=
  fun con =>
    match r with
    | OK a => (Done a, con)
    | Raise e => (Raised e, con)
    end.

(** [try: body / except Exception as e: handler(e)] *)
Definition try_except {A : Type} (body : prog A) (handler : exception -> prog A)
  : prog A :=
  fun con =>
    match body con with
    | (Raised e, con') => handler e con'
    | other => other
    end.

(** The exit status of a finished process: 0 unless [sys.exit] gave another
    one; an exception that nobody caught ends it with status 1. *)
Definition exit_status {A : Type} (o : outcome A) : Z :=
  match o with
  | Done _ => 0%Z
  | Raised _ => 1%Z
  | Exited status => status
  end.

Definition empty_console : Console := mkConsole [] [].

(** ** The imaging library and the file system

    Pillow and [os.path] are not part of the script: their operations are
    the fields of a record, and what the script relies on is stated in
    [Contract]. *)
Record World : Type := mkWorld {
  (** an image as [Image.open] returns it, of any mode and size *)
  Source : Type;
  (** [os.path.exists] *)
  path_exists : string -> bool;
  (** [Image.open] *)
  Image_open : string -> result Source;
  (** [img.size] of a source image *)
  source_size : Source -> nat * nat;
  (** [img.resize(size, Image.Resampling.LANCZOS)] *)
  resize_LANCZOS : Source -> nat * nat -> Source;
  (** [img.convert('1')] *)
  convert_1 : Source -> Image
}.

(** What the script needs from Pillow: [resize] gives the size it is asked
    for, [convert('1')] keeps the size and gives a well-formed 1-bit
    image.  Both are taken as total, as they are on the modes a BMP file
    opens in; [Image.open] may raise. *)
Record Contract (W : World) : Prop := mkContract {
  resize_size : forall (img : Source W) (sz : nat * nat),
    source_size W (resize_LANCZOS W img sz) = sz;
  convert_size : forall img : Source W,
    size (convert_1 W img) = source_size W img;
  convert_well_formed : forall img : Source W,
    well_formed (convert_1 W img) = true;
  convert_mode_1 : forall img : Source W,
    mode_1 (convert_1 W img) = true
}.

Definition size_eqb (a b : nat * nat) : bool :=
  (fst a =? fst b) && (snd a =? snd b).

(** ** The conversion (lines 12-100) *)

(** One row of the preview, lines 91-94. *)
Definition preview_line (pixels : Image) (width y : nat) : result string :=
  for_in (range width)
    (fun x line =>
       pixel <- getitem pixels x y ;;
       ret (line +++ (if (pixel =? 0)%Z then "█" else " ")))
    EmptyString.

(** Lines 88-96. *)
Definition preview (pixels : Image) (width height : nat) : prog unit :=
  print (nl +++ "Предпросмотр изображения:") ;;;
  print (str_repeat "-" 33) ;;;
  for_in (range height)
    (fun y _ => line <- lift (preview_line pixels width y) ;; print line) tt ;;;
  print (str_repeat "-" 33).

Definition convert_bmp_to_ssd1306_array (W : World)
  (input_file array_name : string) : prog unit :=
  try_except
    (img <- lift (Image_open W input_file) ;;
     img <- (if negb (size_eqb (source_size W img) (128, 64)) then
               print ("Предупреждение: Размер изображения " +++
                      str_of_size (source_size W img) +++
                      " не соответствует 128x64.") ;;;
               print "Изображение будет масштабировано до 128x64" ;;;
               ret (resize_LANCZOS W img (128, 64))
             else ret img) ;;
     let img := convert_1 W img in
     let pixels := img in
     let '(width, height) := size img in
     byte_array <- lift (pack img) ;;
     let c_code := make_c_code input_file array_name width height byte_array in
     print c_code ;;;
     print (nl +++ "Успешно конвертировано!") ;;;
     print ("Входной файл: " +++ input_file) ;;;
     print ("Имя массива: " +++ array_name) ;;;
     print ("Размер массива: " +++ str_of_nat (length byte_array) +++ " байт") ;;;
     preview pixels width height)
    (fun e =>
       print ("Ошибка: " +++ str_of_exception e) ;;;
       sys_exit 1).

(** ** The driver (lines 102-127), from the parsed [args.input] on *)
Definition main (W : World) (input : string) : prog unit :=
  (if negb (path_exists W input) then
     print ("Ошибка: Файл '" +++ input +++ "' не найден") ;;;
     sys_exit 1
   else ret tt) ;;;
  (if negb (endswith (lower input) ".bmp") then
     print "Предупреждение: Рекомендуется использовать BMP файлы"
   else ret tt) ;;;
  convert_bmp_to_ssd1306_array W input "image_data".

(** The process from start to end. *)
Definition run {A : Type} (c : prog A) : outcome A * Console :=
  c empty_console.

(** ** A small world for running the script

    A stand-in for Pillow on single-band sources: a table of files,
    nearest-neighbour resampling and a midpoint threshold.  It serves to
    run the script on concrete files; the general statements hold for
    every [World] that meets [Contract]. *)

Definition tabulate (width height : nat) (f : nat -> nat -> Z) : Image :=
  mkImage (width, height)
    (map (fun y => map (fun x => f x y) (seq 0 width)) (seq 0 height)).

Definition sample_at (img : Image) (x y : nat) : Z :=
  nth x (nth y (im img) []) 255%Z.

Definition nearest (img : Image) (sz : nat * nat) : Image :=
  tabulate (fst sz) (snd sz)
    (fun x y =>
       sample_at img (x * fst (size img) / fst sz) (y * snd (size img) / snd sz)).

Definition threshold (img : Image) : Image :=
  tabulate (fst (size img)) (snd (size img))
    (fun x y => if (sample_at img x y <? 128)%Z then 0%Z else 255%Z).

Fixpoint lookup_file (files : list (string * Image)) (path : string)
  : option Image :=
  match files with
  | [] => None
  | (name, img) :: files' =>
      if String.eqb name path then Some img else lookup_file files' path
  end.

Definition world_of_files (files : list (string * Image)) : World :=
  mkWorld Image
    (fun path => match lookup_file files path with Some _ => true | None => false end)
    (fun path =>
       match lookup_file files path with
       | Some img => OK img
       | None =>
           Raise (OSError ("[Errno 2] No such file or directory: '" +++ path +++ "'"))
       end)
    size
    nearest
    threshold.

(** A dark 100x50 picture, smaller than the display. *)
Definition small_dark : Image := uniform 100 50 0.

(** The all-dark grid with the top left pixel light. *)
Definition dark_but_corner : Image :=
  mkImage (128, 64) ((255%Z :: repeat 0%Z 127) :: repeat (repeat 0%Z 128) 63).

Definition sample_world : World :=
  world_of_files [("logo.bmp", all_dark); ("small.bmp", small_dark)].

(** ** Reference functions for the statements *)

(** The sample at [(x, y)], read straight from the storage. *)
Definition pixel (img : Image) (x y : nat) : Z :=
  nth x (nth y (im img) []) 0%Z.

(** A display pixel is lit when the sample is 0, as the test of line 53
    and the glyph choice of line 94 have it. *)
Definition lit (v : Z) : bool := (v =? 0)%Z.

(** The byte of page [page] and column [x], without the error plumbing. *)
Definition column_byte (img : Image) (page x : nat) : Z :=
  fold_left
    (fun byte_value bit =>
       Z.lor byte_value
         (Z.shiftl (bit_value (pixel img x (page * 8 + bit))) (Z.of_nat bit)))
    (seq 0 8) 0%Z.

(** The accumulator after the first [n] bit positions. *)
Definition lor_bits (g : nat -> bool) (n : nat) : Z :=
  fold_left
    (fun byte_value bit =>
       Z.lor byte_value (Z.shiftl (Z.b2z (g bit)) (Z.of_nat bit)))
    (seq 0 n) 0%Z.

Definition layout (img : Image) (width height : nat) : list Z :=
  flat_map (fun page => map (column_byte img page) (seq 0 width))
    (seq 0 (height / 8)).

(** The inverse of the bit packing: pixel [(x, y)] is bit [y mod 8] of the
    byte at index [(y / 8) * width + x]. *)
Definition unpack (width height : nat) (byte_array : list Z) : list (list bool) :=
  map (fun y =>
         map (fun x =>
                Z.testbit (nth ((y / 8) * width + x) byte_array 0%Z)
                  (Z.of_nat (y mod 8)))
           (seq 0 width))
    (seq 0 height).

(** The digit of a value below 16, upper case. *)
Definition hex_digit (d : Z) : ascii :=
  match String.get (Z.to_nat d) "0123456789ABCDEF" with
  | Some c => c
  | None => "?"%char
  end.

(** The number of rows of the literal: 16 values a row, the last row
    with what remains. *)
Definition row_count (byte_array : list Z) : nat :=
  (length byte_array + 15) / 16.

(** Row [k] of a literal of [count] rows: four spaces, the values of
    [byte_array[16 * k : 16 * k + 16]] separated by a comma and a space,
    a comma unless the row is the last one, and a line feed. *)
Definition literal_row (byte_array : list Z) (count k : nat) : string :=
  "    " +++
  String.concat ", " (map hex_literal (slice byte_array (16 * k) (16 * k + 16))) +++
  (if S k <? count then "," else EmptyString) +++ nl.

(** The text of the preview: a title, a rule, one line per row with a
    block for a lit pixel and a space otherwise, and a rule. *)
Definition preview_row (img : Image) (width y : nat) : string :=
  fold_left
    (fun line x => line +++ (if lit (pixel img x y) then "█" else " "))
    (seq 0 width) EmptyString.

Definition preview_text (img : Image) (width height : nat) : list string :=
  [nl +++ "Предпросмотр изображения:"; str_repeat "-" 33]
  ++ map (preview_row img width) (seq 0 height)
  ++ [str_repeat "-" 33].

(** [c] ends normally with value [a] after printing [out]. *)
Definition emits {A : Type} (c : prog A) (a : A) (out : list string) : Prop :=
  forall con : Console,
    c con = (Done a, mkConsole (stdout con ++ out) (stderr con)).

(** The glyph of the preview, line 94. *)
Definition glyph (on : bool) : string := if on then "█" else " ".

(** Reading the values of a literal back, as a C compiler would: every
    [x] is followed by the two hexadecimal digits of one value. *)
Definition digit_value (c : ascii) : Z :=
  let n := nat_of_ascii c in
  if (48 <=? n) && (n <=? 57) then Z.of_nat (n - 48)
  else if (65 <=? n) && (n <=? 70) then Z.of_nat (n - 55)
  else 0%Z.

Fixpoint read_values (s : string) : list Z :=
  match s with
  | EmptyString => []
  | String c rest =>
      if Ascii.eqb c "x" then
        match rest with
        | String h (String l rest') =>
            (16 * digit_value h + digit_value l)%Z :: read_values rest'
        | _ => []
        end
      else read_values rest
  end.

(** [c] ends with outcome [o] after printing [out], whatever was printed
    before, and leaves standard error as it found it. *)
Definition ends {A : Type} (c : prog A) (o : outcome A) (out : list string)
  : Prop :=
  forall con : Console,
    c con = (o, mkConsole (stdout con ++ out) (stderr con)).

(** [c] prints and ends, normally or with an exception, without leaving
    the process by itself. *)
Definition quiet {A : Type} (c : prog A) : Prop :=
  exists (o : outcome A) (out : list string),
    ends c o out /\ forall status : Z, o <> Exited status.

(** A world in which every path exists and no file is an image. *)
Definition unreadable_world : World :=
  mkWorld Image
    (fun _ => true)
    (fun path => Raise (OSError ("cannot identify image file '" +++ path +++ "'")))
    size
    nearest
    threshold.

(** * Properties *)

(** ** Runs on small inputs *)

Example pack_two_columns :
  pack (mkImage (2, 8)
          [[0; 255]; [255; 255]; [255; 0]; [255; 255];
           [255; 255]; [255; 255]; [255; 255]; [0; 0]]%Z)
  = OK [129; 132]%Z.
Proof. reflexivity. Qed.

(** Rows below the last whole page are not packed. *)
Example pack_drops_partial_page :
  pack (uniform 3 15 0) = OK [255; 255; 255]%Z.
Proof. reflexivity. Qed.

Example getitem_outside_image :
  getitem all_dark 128 0 = Raise (IndexError "image index out of range").
Proof. reflexivity. Qed.

Example emit_lines_18 :
  emit_lines (map Z.of_nat (seq 0 18)) EmptyString
  = "    0x00, 0x01, 0x02, 0x03, 0x04, 0x05, 0x06, 0x07, " +++
    "0x08, 0x09, 0x0A, 0x0B, 0x0C, 0x0D, 0x0E, 0x0F," +++ nl +++
    "    0x10, 0x11" +++ nl.
Proof. reflexivity. Qed.

Example format_02X_samples :
  map format_02X [0; 10; 255; 256]%Z = ["00"; "0A"; "FF"; "100"].
Proof. reflexivity. Qed.

Example basename_posix : basename "pics/logo/tergo.bmp" = "tergo.bmp".
Proof. reflexivity. Qed.

(** A file that is not there, passed straight to the conversion: the
    handler of line 98 reports what [Image.open] raised. *)
Example convert_open_fails :
  run (convert_bmp_to_ssd1306_array sample_world "missing.bmp" "image_data")
  = (Exited 1,
     mkConsole
       ["Ошибка: [Errno 2] No such file or directory: 'missing.bmp'"] []).
Proof. reflexivity. Qed.

Section Loops.

Lemma bind_OK {A B : Type} (a : A) (k : A -> result B) :
  (x <- OK a ;; k x) = k a.
Proof. reflexivity. Qed.

(** A loop whose body never raises is a fold. *)
Lemma for_in_pure {S : Type} (body : nat -> S -> result S) (f : S -> nat -> S)
  (P : nat -> Prop) (Q : S -> Prop) :
  (forall i s, P i -> Q s -> body i s = OK (f s i) /\ Q (f s i)) ->
  forall (r : list nat) (s : S),
    Forall P r -> Q s ->
    for_in r body s = OK (fold_left f r s) /\ Q (fold_left f r s).
Proof.
  intros Hbody r. induction r as [| i r IH]; intros s Hr Hs.
  - split; [reflexivity | exact Hs].
  - inversion Hr as [| ? ? Hi Hr']; subst.
    destruct (Hbody i s Hi Hs) as [Hrun Hq].
    cbn [for_in]. rewrite Hrun, bind_OK. cbn [fold_left].
    apply IH; assumption.
Qed.

Lemma Forall_seq_lt (n : nat) : Forall (fun i => i < n) (seq 0 n).
Proof.
  apply Forall_forall. intros i Hi. apply in_seq in Hi. lia.
Qed.

End Loops.

Section Access.

Variable img : Image.
Variables width height : nat.
Hypothesis Hwf : well_formed img = true.
Hypothesis Hsize : size img = (width, height).

Lemma im_length : length (im img) = height.
Proof.
  unfold well_formed in Hwf. rewrite Hsize in Hwf.
  apply andb_prop in Hwf. destruct Hwf as [Hlen _].
  now apply Nat.eqb_eq in Hlen.
Qed.

Lemma row_length (row : list Z) : In row (im img) -> length row = width.
Proof.
  intros Hin. unfold well_formed in Hwf. rewrite Hsize in Hwf.
  apply andb_prop in Hwf. destruct Hwf as [_ Hrows].
  rewrite forallb_forall in Hrows.
  now apply Nat.eqb_eq, Hrows.
Qed.

(** Inside the image the access never raises. *)
Lemma getitem_pixel (x y : nat) :
  x < width -> y < height -> getitem img x y = OK (pixel img x y).
Proof.
  intros Hx Hy. unfold getitem, pixel. rewrite Hsize.
  destruct (Nat.ltb_spec x width); [| lia].
  destruct (Nat.ltb_spec y height); [| lia].
  cbn [andb].
  destruct (nth_error (im img) y) as [row |] eqn:Hrow.
  - rewrite (nth_error_nth _ _ _ Hrow).
    assert (Hlen : length row = width)
      by (apply row_length; eapply nth_error_In; eassumption).
    destruct (nth_error row x) as [v |] eqn:Hv.
    + now rewrite (nth_error_nth _ _ _ Hv).
    + apply nth_error_None in Hv. lia.
  - apply nth_error_None in Hrow. rewrite im_length in Hrow. lia.
Qed.

(** In a mode ['1'] image every sample is 0 or 255. *)
Lemma mode_1_pixel (x y : nat) :
  mode_1 img = true -> x < width -> y < height ->
  pixel img x y = 0%Z \/ pixel img x y = 255%Z.
Proof.
  intros Hmode Hx Hy. unfold mode_1 in Hmode.
  rewrite forallb_forall in Hmode.
  assert (Hrow : In (nth y (im img) []) (im img))
    by (apply nth_In; rewrite im_length; exact Hy).
  specialize (Hmode _ Hrow). rewrite forallb_forall in Hmode.
  assert (Hv : In (pixel img x y) (nth y (im img) []))
    by (apply nth_In; rewrite (row_length _ Hrow); exact Hx).
  specialize (Hmode _ Hv).
  apply orb_prop in Hmode. destruct Hmode as [H0 | H255].
  - left. now apply Z.eqb_eq.
  - right. now apply Z.eqb_eq.
Qed.

Lemma getitem_outside (x y : nat) :
  width <= x \/ height <= y ->
  getitem img x y = Raise (IndexError "image index out of range").
Proof.
  intros Hout. unfold getitem. rewrite Hsize.
  destruct (Nat.ltb_spec x width); destruct (Nat.ltb_spec y height);
    cbn [andb]; try reflexivity; lia.
Qed.

End Access.

(** ** Bits of a packed byte *)

Section Bits.

Local Open Scope Z_scope.

Lemma bit_value_b2z (v : Z) : bit_value v = Z.b2z (lit v).
Proof. unfold bit_value, lit. now destruct (v =? 0). Qed.

Lemma testbit_shifted_flag (c : bool) (n i : Z) :
  0 <= n -> 0 <= i ->
  Z.testbit (Z.shiftl (Z.b2z c) n) i = c && (i =? n).
Proof.
  intros Hn Hi. rewrite Z.shiftl_spec by assumption.
  destruct (Z.eqb_spec i n) as [-> | Hne].
  - rewrite Z.sub_diag, Z.b2z_bit0. now rewrite andb_true_r.
  - rewrite andb_false_r.
    destruct (Z.lt_ge_cases i n).
    + apply Z.testbit_neg_r. lia.
    + destruct c; cbn [Z.b2z].
      * replace 1 with (2 ^ 0) by reflexivity.
        rewrite Z.pow2_bits_false; [reflexivity | lia].
      * apply Z.bits_0.
Qed.

Lemma lor_bits_succ (g : nat -> bool) (n : nat) :
  lor_bits g (S n) =
  Z.lor (lor_bits g n) (Z.shiftl (Z.b2z (g n)) (Z.of_nat n)).
Proof.
  unfold lor_bits. rewrite seq_S, fold_left_app. reflexivity.
Qed.

Lemma lor_bits_ext (g g' : nat -> bool) (n : nat) :
  (forall b : nat, (b < n)%nat -> g b = g' b) -> lor_bits g n = lor_bits g' n.
Proof.
  induction n as [| n IH]; intros Hg; [reflexivity |].
  rewrite !lor_bits_succ, IH, Hg by auto with arith. reflexivity.
Qed.

Lemma lor_bits_testbit (g : nat -> bool) (n i : nat) :
  Z.testbit (lor_bits g n) (Z.of_nat i) = (i <? n)%nat && g i.
Proof.
  induction n as [| n IH].
  - cbn. apply Z.bits_0.
  - rewrite lor_bits_succ, Z.lor_spec, IH, testbit_shifted_flag by lia.
    destruct (Nat.ltb_spec i n); destruct (Nat.ltb_spec i (S n)); try lia;
      destruct (Z.eqb_spec (Z.of_nat i) (Z.of_nat n)); cbn;
      try lia; rewrite ?andb_false_r, ?andb_true_r, ?orb_false_r; try reflexivity.
    assert (i = n) by lia. now subst.
Qed.

Lemma lor_bits_nonneg (g : nat -> bool) (n : nat) : 0 <= lor_bits g n.
Proof.
  induction n as [| n IH]; [cbn; lia |].
  rewrite lor_bits_succ. apply Z.lor_nonneg. split; [exact IH |].
  apply Z.shiftl_nonneg. destruct (g n); cbn; lia.
Qed.

Lemma lor_bits_bound (g : nat -> bool) (n : nat) :
  0 <= lor_bits g n < 2 ^ Z.of_nat n.
Proof.
  split; [apply lor_bits_nonneg |].
  assert (Hmod : lor_bits g n mod 2 ^ Z.of_nat n = lor_bits g n).
  { apply Z.bits_inj'. intros i Hi.
    destruct (Z.lt_ge_cases i (Z.of_nat n)) as [Hlt | Hge].
    - now rewrite Z.mod_pow2_bits_low.
    - rewrite Z.mod_pow2_bits_high by lia.
      rewrite <- (Z2Nat.id i) by assumption.
      rewrite lor_bits_testbit.
      destruct (Nat.ltb_spec (Z.to_nat i) n); [lia | reflexivity]. }
  rewrite <- Hmod. apply Z.mod_pos_bound. apply Z.pow_pos_nonneg; lia.
Qed.

Lemma column_byte_lor_bits (img : Image) (page x : nat) :
  column_byte img page x =
  lor_bits (fun bit => lit (pixel img x (page * 8 + bit))) 8.
Proof.
  unfold column_byte, lor_bits.
  cbn [seq fold_left]. now rewrite !bit_value_b2z.
Qed.

Lemma column_byte_testbit (img : Image) (page x bit : nat) :
  (bit < 8)%nat ->
  Z.testbit (column_byte img page x) (Z.of_nat bit)
  = lit (pixel img x (page * 8 + bit)).
Proof.
  intros Hbit. rewrite column_byte_lor_bits, lor_bits_testbit.
  destruct (Nat.ltb_spec bit 8); [reflexivity | lia].
Qed.

Lemma column_byte_range (img : Image) (page x : nat) :
  0 <= column_byte img page x < 256.
Proof.
  rewrite column_byte_lor_bits.
  change 256 with (2 ^ Z.of_nat 8). apply lor_bits_bound.
Qed.

End Bits.

(** ** The packing loops *)

Section Packing.

Variable img : Image.
Variables width height : nat.
Hypothesis Hwf : well_formed img = true.
Hypothesis Hsize : size img = (width, height).

(** The bit loop of a column inside the image. *)
Lemma bit_loop_column_byte (page x : nat) :
  x < width -> page < height / 8 ->
  for_in (range 8) (bit_body img height page x) 0%Z
  = OK (column_byte img page x).
Proof.
  intros Hx Hpage.
  assert (Hrows : page * 8 + 8 <= height).
  { pose proof (Nat.div_mod_eq height 8). lia. }
  apply (for_in_pure (bit_body img height page x)
           (fun byte_value bit =>
              Z.lor byte_value
                (Z.shiftl (bit_value (pixel img x (page * 8 + bit)))
                   (Z.of_nat bit)))
           (fun bit => bit < 8) (fun _ => True)).
  - intros bit byte_value Hbit _. split; [| exact I].
    unfold bit_body.
    destruct (Nat.ltb_spec (page * 8 + bit) height); [| lia].
    rewrite (getitem_pixel img width height Hwf Hsize) by lia.
    reflexivity.
  - apply Forall_seq_lt.
  - exact I.
Qed.

Lemma append_byte (byte_array : list Z) (v : Z) :
  (0 <= v < 256)%Z -> append byte_array v = OK (byte_array ++ [v]).
Proof.
  intros Hv. unfold append.
  destruct (Z.leb_spec 0 v); destruct (Z.ltb_spec v 256); try lia.
  reflexivity.
Qed.

Lemma fold_left_snoc {A B : Type} (f : A -> B) (l : list A) (acc : list B) :
  fold_left (fun acc a => acc ++ [f a]) l acc = acc ++ map f l.
Proof.
  revert acc. induction l as [| a l IH]; intros acc; cbn.
  - now rewrite app_nil_r.
  - rewrite IH, <- app_assoc. reflexivity.
Qed.

Lemma fold_left_extend {A B : Type} (f : A -> list B) (l : list A) (acc : list B) :
  fold_left (fun acc a => acc ++ f a) l acc = acc ++ flat_map f l.
Proof.
  revert acc. induction l as [| a l IH]; intros acc; cbn.
  - now rewrite app_nil_r.
  - rewrite IH, <- app_assoc. reflexivity.
Qed.

(** A page appends one byte per column, left to right. *)
Lemma page_body_appends (page : nat) (byte_array : list Z) :
  page < height / 8 ->
  page_body img width height page byte_array
  = OK (byte_array ++ map (column_byte img page) (seq 0 width)).
Proof.
  intros Hpage. unfold page_body, range.
  rewrite <- fold_left_snoc.
  apply (for_in_pure (column_body img height page)
           (fun acc x => acc ++ [column_byte img page x])
           (fun x => x < width) (fun _ => True)).
  - intros x acc Hx _. split; [| exact I].
    unfold column_body. rewrite bit_loop_column_byte by assumption.
    rewrite bind_OK. apply append_byte, column_byte_range.
  - apply Forall_seq_lt.
  - exact I.
Qed.

(** The packing step never raises on a well-formed image and yields the
    bytes page after page. *)
Lemma pack_layout : pack img = OK (layout img width height).
Proof.
  unfold pack, layout, range. rewrite Hsize.
  change (flat_map (fun page => map (column_byte img page) (seq 0 width))
            (seq 0 (height / 8)))
    with ([] ++ flat_map (fun page => map (column_byte img page) (seq 0 width))
            (seq 0 (height / 8))).
  rewrite <- fold_left_extend.
  apply (for_in_pure (page_body img width height)
           (fun acc page => acc ++ map (column_byte img page) (seq 0 width))
           (fun page => page < height / 8) (fun _ => True)).
  - intros page acc Hpage _. split; [| exact I].
    now apply page_body_appends.
  - apply Forall_seq_lt.
  - exact I.
Qed.

End Packing.

(** ** Shape of the layout *)

Lemma flat_map_rows_length {A : Type} (f : nat -> list A) (w : nat) (l : list nat) :
  (forall p, length (f p) = w) -> length (flat_map f l) = length l * w.
Proof.
  intros Hf. induction l as [| p l IH]; cbn; [reflexivity |].
  rewrite length_app, Hf, IH. reflexivity.
Qed.

Lemma layout_length (img : Image) (width height : nat) :
  length (layout img width height) = (height / 8) * width.
Proof.
  unfold layout.
  rewrite (flat_map_rows_length _ width)
    by (intros p; now rewrite length_map, length_seq).
  now rewrite length_seq.
Qed.

Lemma flat_map_rows_nth {A : Type} (f : nat -> list A) (w n p x : nat) (a : A) :
  (forall q, length (f q) = w) ->
  p < n -> x < w ->
  nth_error (f p) x = Some a ->
  nth_error (flat_map f (seq 0 n)) (p * w + x) = Some a.
Proof.
  intros Hf Hp Hx Ha. induction n as [| n IH]; [lia |].
  rewrite seq_S, flat_map_app. cbn [flat_map Nat.add]. rewrite app_nil_r.
  assert (Hlen : length (flat_map f (seq 0 n)) = n * w)
    by (rewrite (flat_map_rows_length f w) by assumption;
        now rewrite length_seq).
  destruct (Nat.eq_dec p n) as [-> | Hne].
  - rewrite nth_error_app2 by (rewrite Hlen; lia).
    rewrite Hlen. replace (n * w + x - n * w) with x by lia. exact Ha.
  - rewrite nth_error_app1 by (rewrite Hlen; nia).
    apply IH. lia.
Qed.

Lemma layout_nth (img : Image) (width height page x : nat) :
  page < height / 8 -> x < width ->
  nth_error (layout img width height) (page * width + x)
  = Some (column_byte img page x).
Proof.
  intros Hpage Hx. unfold layout.
  apply flat_map_rows_nth; try assumption.
  - intros q. now rewrite length_map, length_seq.
  - rewrite nth_error_map, nth_error_seq.
    destruct (Nat.ltb_spec x width); [reflexivity | lia].
Qed.

(** ** Bit of a pixel in the packed bytes *)

Lemma page_of_row (height y : nat) :
  height mod 8 = 0 -> y < height ->
  y / 8 < height / 8 /\ y mod 8 < 8 /\ (y / 8) * 8 + y mod 8 = y.
Proof.
  intros Hmod Hy.
  pose proof (Nat.div_mod_eq height 8) as Hh.
  pose proof (Nat.div_mod_eq y 8) as Hyy.
  pose proof (Nat.mod_upper_bound y 8 ltac:(lia)) as Hb.
  repeat split; lia.
Qed.

Lemma layout_pixel_bit (img : Image) (width height x y : nat) :
  height mod 8 = 0 -> x < width -> y < height ->
  Z.testbit (nth ((y / 8) * width + x) (layout img width height) 0%Z)
    (Z.of_nat (y mod 8))
  = lit (pixel img x y).
Proof.
  intros Hmod Hx Hy.
  destruct (page_of_row height y Hmod Hy) as (Hpage & Hbit & Hrow).
  rewrite (nth_error_nth _ _ _ (layout_nth img width height _ _ Hpage Hx)).
  rewrite column_byte_testbit by assumption.
  now rewrite Hrow.
Qed.

Lemma list_tabulate {A : Type} (d : A) (l : list A) :
  map (fun i => nth i l d) (seq 0 (length l)) = l.
Proof.
  induction l as [| a l IH]; [reflexivity |].
  cbn [length seq map nth]. f_equal.
  rewrite <- seq_shift, map_map. exact IH.
Qed.

Lemma unpack_layout (img : Image) (width height : nat) :
  well_formed img = true -> size img = (width, height) ->
  height mod 8 = 0 ->
  unpack width height (layout img width height) = map (map lit) (im img).
Proof.
  intros Hwf Hsize Hmod.
  pose proof (im_length img width height Hwf Hsize) as Hlen.
  rewrite <- (list_tabulate [] (im img)) at 1.
  rewrite Hlen, map_map. unfold unpack.
  apply map_ext_in. intros y Hy. apply in_seq in Hy.
  assert (Hrow : length (nth y (im img) []) = width).
  { apply (row_length img width height Hwf Hsize), nth_In. lia. }
  rewrite <- (list_tabulate 0%Z (nth y (im img) [])) at 1.
  rewrite Hrow, map_map.
  apply map_ext_in. intros x Hx. apply in_seq in Hx.
  apply layout_pixel_bit; lia.
Qed.

(** ** The claims on the packing step *)

(** C1. For every 128x64 grid the packing step succeeds with 8 * 128
    bytes laid out page by page and, within a page, column by column:
    the byte of page [p] and column [x] sits at index [p * 128 + x], it
    is a byte, and its bit [b] is set exactly when the pixel at column
    [x], row [p * 8 + b] is lit (its sample is 0). *)
Theorem pack_native_order (img : Image)
  (Hwf : well_formed img = true) (Hsize : size img = (128, 64)) :
  exists byte_array : list Z,
    pack img = OK byte_array /\
    length byte_array = 8 * 128 /\
    forall p x : nat, p < 8 -> x < 128 ->
      exists byte_value : Z,
        nth_error byte_array (p * 128 + x) = Some byte_value /\
        (0 <= byte_value < 256)%Z /\
        forall b : nat, b < 8 ->
          exists pixel_value : Z,
            getitem img x (p * 8 + b) = OK pixel_value /\
            Z.testbit byte_value (Z.of_nat b) = lit pixel_value.
Proof.
  exists (layout img 128 64). split; [now apply pack_layout |].
  split; [now rewrite layout_length |].
  intros p x Hp Hx. exists (column_byte img p x).
  split; [apply layout_nth; [exact Hp | exact Hx] |].
  split; [apply column_byte_range |].
  intros b Hb. exists (pixel img x (p * 8 + b)). split.
  - apply (getitem_pixel img 128 64); [assumption | assumption | lia | lia].
  - now apply column_byte_testbit.
Qed.

(** C2. For every pixel of a 128x64 monochrome grid, the bit that the
    packing step gives it is 1 when the sample is 0 (dark) and 0 when the
    sample is 255 (light), and a mode ['1'] grid has no other samples;
    [pack] takes the image and nothing else, so nothing can switch the
    polarity. *)
Theorem pack_dark_is_lit (img : Image)
  (Hwf : well_formed img = true) (Hsize : size img = (128, 64)) :
  exists byte_array : list Z,
    pack img = OK byte_array /\
    forall x y : nat, x < 128 -> y < 64 ->
      exists pixel_value : Z,
        getitem img x y = OK pixel_value /\
        (pixel_value = 0%Z ->
         Z.testbit (nth ((y / 8) * 128 + x) byte_array 0%Z)
           (Z.of_nat (y mod 8)) = true) /\
        (pixel_value = 255%Z ->
         Z.testbit (nth ((y / 8) * 128 + x) byte_array 0%Z)
           (Z.of_nat (y mod 8)) = false) /\
        (mode_1 img = true -> pixel_value = 0%Z \/ pixel_value = 255%Z).
Proof.
  exists (layout img 128 64). split; [now apply pack_layout |].
  intros x y Hx Hy. exists (pixel img x y).
  split; [now apply (getitem_pixel img 128 64) |].
  rewrite layout_pixel_bit by (try reflexivity; assumption).
  split; [intros ->; reflexivity |].
  split; [intros ->; reflexivity |].
  intros Hmode. now apply (mode_1_pixel img 128 64).
Qed.

(** C4. For every well-formed grid of any width and height the packing
    step succeeds and the number of bytes is
    [width * (height / pageRows)], with the 8-row pages of the code; for
    a 128x64 grid that is 1024 bytes. *)
Theorem pack_length (img : Image) (width height : nat)
  (Hwf : well_formed img = true) (Hsize : size img = (width, height)) :
  exists byte_array : list Z,
    pack img = OK byte_array /\
    length byte_array = width * (height / pageRows) /\
    (width = 128 -> height = 64 -> length byte_array = 1024).
Proof.
  exists (layout img width height).
  split; [now apply pack_layout |].
  rewrite layout_length. unfold pageRows.
  split; [apply Nat.mul_comm |].
  intros -> ->. reflexivity.
Qed.

(** C5. The all-dark 128x64 grid packs to 1024 bytes, each 0xFF. *)
Theorem pack_all_dark : pack all_dark = OK (repeat 255%Z 1024).
Proof. vm_compute. reflexivity. Qed.

(** C6. The all-light 128x64 grid packs to 1024 bytes, each 0x00. *)
Theorem pack_all_light : pack all_light = OK (repeat 0%Z 1024).
Proof. vm_compute. reflexivity. Qed.

(** C7. For every 128x64 grid, unpacking the packed bytes (bit [y mod 8]
    of the byte at index [(y / 8) * 128 + x] for pixel [(x, y)]) gives
    back the lit/unlit pattern of the grid, row by row. *)
Theorem unpack_pack (img : Image)
  (Hwf : well_formed img = true) (Hsize : size img = (128, 64)) :
  exists byte_array : list Z,
    pack img = OK byte_array /\
    unpack 128 64 byte_array = map (map lit) (im img).
Proof.
  exists (layout img 128 64). split; [now apply pack_layout |].
  now apply unpack_layout.
Qed.

(** C10. When two 128x64 grids agree on the eight pixels of column [x],
    rows [p * 8] to [p * 8 + 7], their packed outputs hold the same byte
    at index [p * 128 + x], whatever the grids are elsewhere. *)
Theorem pack_byte_local (img1 img2 : Image) (p x : nat)
  (Hwf1 : well_formed img1 = true) (Hsize1 : size img1 = (128, 64))
  (Hwf2 : well_formed img2 = true) (Hsize2 : size img2 = (128, 64))
  (Hp : p < 8) (Hx : x < 128)
  (Hagree : forall b : nat, b < 8 ->
     getitem img1 x (p * 8 + b) = getitem img2 x (p * 8 + b)) :
  exists (bytes1 bytes2 : list Z) (byte_value : Z),
    pack img1 = OK bytes1 /\
    pack img2 = OK bytes2 /\
    nth_error bytes1 (p * 128 + x) = Some byte_value /\
    nth_error bytes2 (p * 128 + x) = Some byte_value.
Proof.
  exists (layout img1 128 64), (layout img2 128 64), (column_byte img1 p x).
  split; [now apply pack_layout |].
  split; [now apply pack_layout |].
  split; [apply layout_nth; [exact Hp | exact Hx] |].
  replace (column_byte img1 p x) with (column_byte img2 p x).
  - apply layout_nth; [exact Hp | exact Hx].
  - rewrite !column_byte_lor_bits. apply lor_bits_ext.
    intros b Hb. f_equal.
    pose proof (Hagree b Hb) as Hb12.
    rewrite (getitem_pixel img1 128 64 Hwf1 Hsize1) in Hb12 by lia.
    rewrite (getitem_pixel img2 128 64 Hwf2 Hsize2) in Hb12 by lia.
    now injection Hb12.
Qed.

Lemma pack_native_order_witness :
  well_formed all_dark = true /\ size all_dark = (128, 64) /\
  exists byte_array : list Z,
    pack all_dark = OK byte_array /\
    length byte_array = 8 * 128 /\
    forall p x : nat, p < 8 -> x < 128 ->
      exists byte_value : Z,
        nth_error byte_array (p * 128 + x) = Some byte_value /\
        (0 <= byte_value < 256)%Z /\
        forall b : nat, b < 8 ->
          exists pixel_value : Z,
            getitem all_dark x (p * 8 + b) = OK pixel_value /\
            Z.testbit byte_value (Z.of_nat b) = lit pixel_value.
Proof.
  split; [vm_compute; reflexivity |].
  split; [reflexivity |].
  apply (pack_native_order all_dark); vm_compute; reflexivity.
Defined.

Lemma pack_dark_is_lit_witness :
  well_formed dark_but_corner = true /\ size dark_but_corner = (128, 64) /\
  exists byte_array : list Z,
    pack dark_but_corner = OK byte_array /\
    forall x y : nat, x < 128 -> y < 64 ->
      exists pixel_value : Z,
        getitem dark_but_corner x y = OK pixel_value /\
        (pixel_value = 0%Z ->
         Z.testbit (nth ((y / 8) * 128 + x) byte_array 0%Z)
           (Z.of_nat (y mod 8)) = true) /\
        (pixel_value = 255%Z ->
         Z.testbit (nth ((y / 8) * 128 + x) byte_array 0%Z)
           (Z.of_nat (y mod 8)) = false) /\
        (mode_1 dark_but_corner = true ->
         pixel_value = 0%Z \/ pixel_value = 255%Z).
Proof.
  split; [vm_compute; reflexivity |].
  split; [reflexivity |].
  apply (pack_dark_is_lit dark_but_corner); vm_compute; reflexivity.
Defined.

Lemma pack_length_witness :
  well_formed all_dark = true /\ size all_dark = (128, 64) /\
  exists byte_array : list Z,
    pack all_dark = OK byte_array /\
    length byte_array = 128 * (64 / pageRows) /\
    (128 = 128 -> 64 = 64 -> length byte_array = 1024).
Proof.
  split; [vm_compute; reflexivity |].
  split; [reflexivity |].
  apply (pack_length all_dark 128 64); vm_compute; reflexivity.
Defined.

Lemma unpack_pack_witness :
  well_formed dark_but_corner = true /\ size dark_but_corner = (128, 64) /\
  exists byte_array : list Z,
    pack dark_but_corner = OK byte_array /\
    unpack 128 64 byte_array = map (map lit) (im dark_but_corner).
Proof.
  split; [vm_compute; reflexivity |].
  split; [reflexivity |].
  apply (unpack_pack dark_but_corner); vm_compute; reflexivity.
Defined.

Lemma pack_byte_local_witness :
  well_formed all_dark = true /\ well_formed dark_but_corner = true /\
  (forall b : nat, b < 8 ->
     getitem all_dark 5 (3 * 8 + b) = getitem dark_but_corner 5 (3 * 8 + b)) /\
  exists (bytes1 bytes2 : list Z) (byte_value : Z),
    pack all_dark = OK bytes1 /\
    pack dark_but_corner = OK bytes2 /\
    nth_error bytes1 (3 * 128 + 5) = Some byte_value /\
    nth_error bytes2 (3 * 128 + 5) = Some byte_value.
Proof.
  assert (Hagree : forall b : nat, b < 8 ->
            getitem all_dark 5 (3 * 8 + b) = getitem dark_but_corner 5 (3 * 8 + b)).
  { intros b Hb.
    do 8 (destruct b as [| b]; [vm_compute; reflexivity |]). lia. }
  split; [vm_compute; reflexivity |].
  split; [vm_compute; reflexivity |].
  split; [exact Hagree |].
  apply (pack_byte_local all_dark dark_but_corner 3 5);
    solve [vm_compute; reflexivity | lia | exact Hagree].
Defined.

(** ** The process monad *)

Lemma emits_ret {A : Type} (a : A) : emits (ret a) a [].
Proof. intros [out err]. cbn. now rewrite app_nil_r. Qed.

Lemma emits_print (s : string) : emits (print s) tt [s].
Proof. intros con. reflexivity. Qed.

Lemma emits_lift {A : Type} (r : result A) (a : A) :
  r = OK a -> emits (lift r) a [].
Proof. intros -> [out err]. cbn. now rewrite app_nil_r. Qed.

Lemma emits_bind {A B : Type} (c : prog A) (k : A -> prog B)
  (a : A) (b : B) (out1 out2 : list string) :
  emits c a out1 -> emits (k a) b out2 ->
  emits (x <- c ;; k x) b (out1 ++ out2).
Proof.
  intros Hc Hk con. cbn. rewrite Hc, Hk. cbn. now rewrite app_assoc.
Qed.

Lemma emits_try_except {A : Type} (body : prog A) (handler : exception -> prog A)
  (a : A) (out : list string) :
  emits body a out -> emits (try_except body handler) a out.
Proof. intros Hbody con. unfold try_except. now rewrite Hbody. Qed.

Lemma emits_run {A : Type} (c : prog A) (a : A) (out : list string) :
  emits c a out -> run c = (Done a, mkConsole out []).
Proof. intros Hc. unfold run. now rewrite Hc. Qed.

(** ** The preview *)

Section Preview.

Variable img : Image.
Variables width height : nat.
Hypothesis Hwf : well_formed img = true.
Hypothesis Hsize : size img = (width, height).

Lemma preview_line_row (y : nat) :
  y < height -> preview_line img width y = OK (preview_row img width y).
Proof.
  intros Hy. unfold preview_line, preview_row, range.
  apply (for_in_pure
           (fun x line =>
              pixel_value <- getitem img x y ;;
              ret (line +++ (if (pixel_value =? 0)%Z then "█" else " ")))
           (fun line x => line +++ (if lit (pixel img x y) then "█" else " "))
           (fun x => x < width) (fun _ => True)).
  - intros x line Hx _. split; [| exact I].
    now rewrite (getitem_pixel img width height Hwf Hsize) by assumption.
  - apply Forall_seq_lt.
  - exact I.
Qed.

Lemma preview_rows_emitted (rows : list nat) :
  Forall (fun y => y < height) rows ->
  emits
    (for_in rows
       (fun y _ => line <- lift (preview_line img width y) ;; print line) tt)
    tt (map (preview_row img width) rows).
Proof.
  induction rows as [| y rows IH]; intros Hrows.
  - apply emits_ret.
  - inversion Hrows as [| ? ? Hy Hrows']; subst.
    cbn [for_in map].
    change (preview_row img width y :: map (preview_row img width) rows)
      with ([preview_row img width y] ++ map (preview_row img width) rows).
    eapply emits_bind; [| apply IH; assumption].
    change [preview_row img width y] with ([] ++ [preview_row img width y]).
    eapply emits_bind; [| apply emits_print].
    apply emits_lift. now apply preview_line_row.
Qed.

Lemma preview_emitted :
  emits (preview img width height) tt (preview_text img width height).
Proof.
  unfold preview, preview_text.
  change ([nl +++ "Предпросмотр изображения:"; str_repeat "-" 33]
          ++ map (preview_row img width) (seq 0 height) ++ [str_repeat "-" 33])
    with ([nl +++ "Предпросмотр изображения:"]
          ++ [str_repeat "-" 33]
          ++ map (preview_row img width) (seq 0 height)
          ++ [str_repeat "-" 33]).
  eapply emits_bind; [apply emits_print |].
  eapply emits_bind; [apply emits_print |].
  eapply emits_bind; [| apply emits_print].
  apply preview_rows_emitted, Forall_seq_lt.
Qed.

End Preview.

(** ** The conversion as a whole *)

Lemma size_eqb_neq (a b : nat * nat) : a <> b -> size_eqb a b = false.
Proof.
  destruct a as [a1 a2], b as [b1 b2]. intros Hne. unfold size_eqb. cbn.
  destruct (Nat.eqb_spec a1 b1); destruct (Nat.eqb_spec a2 b2);
    try reflexivity. subst. now elim Hne.
Qed.

(** What the script prints once the image has the display size. *)
Lemma converted_emitted (W : World) (HW : Contract W)
  (input_file array_name : string) (src : Source W) :
  source_size W src = (128, 64) ->
  exists byte_array : list Z,
    pack (convert_1 W src) = OK byte_array /\
    length byte_array = 1024 /\
    emits
      (let img := convert_1 W src in
       let pixels := img in
       let '(width, height) := size img in
       byte_array <- lift (pack img) ;;
       let c_code := make_c_code input_file array_name width height byte_array in
       print c_code ;;;
       print (nl +++ "Успешно конвертировано!") ;;;
       print ("Входной файл: " +++ input_file) ;;;
       print ("Имя массива: " +++ array_name) ;;;
       print ("Размер массива: " +++ str_of_nat (length byte_array) +++ " байт") ;;;
       preview pixels width height)
      tt
      ([make_c_code input_file array_name 128 64 byte_array;
        nl +++ "Успешно конвертировано!";
        "Входной файл: " +++ input_file;
        "Имя массива: " +++ array_name;
        "Размер массива: " +++ str_of_nat (length byte_array) +++ " байт"]
       ++ preview_text (convert_1 W src) 128 64).
Proof.
  intros Hsrc.
  pose proof (convert_well_formed W HW src) as Hwf.
  pose proof (convert_size W HW src) as Hsize. rewrite Hsrc in Hsize.
  exists (layout (convert_1 W src) 128 64).
  pose proof (pack_layout _ 128 64 Hwf Hsize) as Hpack.
  split; [exact Hpack |].
  split; [now rewrite layout_length |].
  cbv zeta. rewrite Hsize.
  change (?a :: ?b :: ?c :: ?d :: [?e]) with ([] ++ [a] ++ [b] ++ [c] ++ [d] ++ [e]).
  rewrite <- !app_assoc.
  eapply emits_bind; [apply emits_lift; exact Hpack |].
  do 5 (eapply emits_bind; [apply emits_print |]).
  now apply preview_emitted.
Qed.

Lemma emits_eq {A : Type} (c : prog A) (a : A) (out out' : list string) :
  emits c a out -> out = out' -> emits c a out'.
Proof. now intros Hc <-. Qed.

(** The stand-in library meets the contract, whatever the files are. *)
Lemma tabulate_well_formed (width height : nat) (f : nat -> nat -> Z) :
  well_formed (tabulate width height f) = true.
Proof.
  unfold well_formed, tabulate. cbn.
  rewrite length_map, length_seq, Nat.eqb_refl. cbn.
  apply forallb_forall. intros row Hrow.
  apply in_map_iff in Hrow. destruct Hrow as (y & <- & _).
  now rewrite length_map, length_seq, Nat.eqb_refl.
Qed.

Lemma world_of_files_contract (files : list (string * Image)) :
  Contract (world_of_files files).
Proof.
  constructor; cbn.
  - intros img [w h]. reflexivity.
  - intros img. unfold threshold, tabulate. cbn. now destruct (size img).
  - intros img. apply tabulate_well_formed.
  - intros img. unfold mode_1, threshold, tabulate. cbn.
    apply forallb_forall. intros row Hrow.
    apply in_map_iff in Hrow. destruct Hrow as (y & <- & _).
    apply forallb_forall. intros v Hv.
    apply in_map_iff in Hv. destruct Hv as (x & <- & _).
    now destruct (sample_at img x y <? 128)%Z.
Qed.

(** ** The claims on the conversion and the driver *)

(** C3, as the code has it. For every input image whose dimensions
    differ from 128x64 the conversion does not fail: it prints a two-line
    warning, rescales the image to 128x64, converts and packs it into
    1024 bytes, and prints the C literal, the summary and the preview,
    ending normally. *)
Theorem convert_rescales (W : World) (input_file array_name : string)
  (src : Source W)
  (HW : Contract W)
  (Hopen : Image_open W input_file = OK src)
  (Hmismatch : source_size W src <> (128, 64)) :
  let img := convert_1 W (resize_LANCZOS W src (128, 64)) in
  exists byte_array : list Z,
    size img = (128, 64) /\
    pack img = OK byte_array /\
    length byte_array = 1024 /\
    run (convert_bmp_to_ssd1306_array W input_file array_name)
    = (Done tt,
       mkConsole
         (["Предупреждение: Размер изображения " +++
           str_of_size (source_size W src) +++ " не соответствует 128x64.";
           "Изображение будет масштабировано до 128x64";
           make_c_code input_file array_name 128 64 byte_array;
           nl +++ "Успешно конвертировано!";
           "Входной файл: " +++ input_file;
           "Имя массива: " +++ array_name;
           "Размер массива: " +++ str_of_nat (length byte_array) +++ " байт"]
          ++ preview_text img 128 64)
         []).
Proof.
  intros img.
  assert (Hresized : source_size W (resize_LANCZOS W src (128, 64)) = (128, 64))
    by apply (resize_size W HW).
  destruct (converted_emitted W HW input_file array_name _ Hresized)
    as (byte_array & Hpack & Hlen & Hrest).
  exists byte_array.
  split; [unfold img; now rewrite (convert_size W HW) |].
  split; [exact Hpack |].
  split; [exact Hlen |].
  apply emits_run. unfold convert_bmp_to_ssd1306_array.
  apply emits_try_except.
  eapply emits_eq.
  - eapply emits_bind; [apply emits_lift; exact Hopen |].
    cbv beta. rewrite (size_eqb_neq _ _ Hmismatch). cbn [negb].
    eapply emits_bind; [| exact Hrest].
    eapply emits_bind; [apply emits_print |].
    eapply emits_bind; [apply emits_print |].
    apply emits_ret.
  - reflexivity.
Qed.

Lemma convert_rescales_witness :
  Image_open sample_world "small.bmp" = OK small_dark /\
  source_size sample_world small_dark <> (128, 64) /\
  let img := convert_1 sample_world
               (resize_LANCZOS sample_world small_dark (128, 64)) in
  exists byte_array : list Z,
    size img = (128, 64) /\
    pack img = OK byte_array /\
    length byte_array = 1024 /\
    run (convert_bmp_to_ssd1306_array sample_world "small.bmp" "image_data")
    = (Done tt,
       mkConsole
         (["Предупреждение: Размер изображения " +++
           str_of_size (source_size sample_world small_dark) +++
           " не соответствует 128x64.";
           "Изображение будет масштабировано до 128x64";
           make_c_code "small.bmp" "image_data" 128 64 byte_array;
           nl +++ "Успешно конвертировано!";
           "Входной файл: " +++ "small.bmp";
           "Имя массива: " +++ "image_data";
           "Размер массива: " +++ str_of_nat (length byte_array) +++ " байт"]
          ++ preview_text img 128 64)
         []).
Proof.
  split; [reflexivity |].
  split; [intros H; discriminate H |].
  apply (convert_rescales sample_world "small.bmp" "image_data" small_dark).
  - apply world_of_files_contract.
  - reflexivity.
  - intros H; discriminate H.
Defined.

(** C3 as the claim states it fails: a 100x50 picture is not rejected,
    the process ends normally and the literal it prints holds the 1024
    bytes of the rescaled picture. *)
Lemma mismatch_not_rejected :
  Image_open sample_world "small.bmp" = OK small_dark /\
  size small_dark = (100, 50) /\
  fst (run (convert_bmp_to_ssd1306_array sample_world "small.bmp" "image_data"))
  = Done tt /\
  nth_error
    (stdout
       (snd (run (convert_bmp_to_ssd1306_array sample_world "small.bmp"
                    "image_data"))))
    2
  = Some (make_c_code "small.bmp" "image_data" 128 64 (repeat 255%Z 1024)).
Proof. vm_compute. repeat split. Qed.

(** C9, as the code has it. For every input path that does not name an
    existing file the process exits with status 1 after printing one
    line, the error message, to standard output; nothing goes to
    standard error and no packed output is printed. *)
Theorem main_missing_file (W : World) (input : string)
  (Hmissing : path_exists W input = false) :
  run (main W input)
  = (Exited 1, mkConsole ["Ошибка: Файл '" +++ input +++ "' не найден"] []) /\
  exit_status (fst (run (main W input))) <> 0%Z.
Proof.
  assert (Hrun : run (main W input)
                 = (Exited 1,
                    mkConsole ["Ошибка: Файл '" +++ input +++ "' не найден"] [])).
  { unfold run, main. cbn. rewrite Hmissing. reflexivity. }
  split; [exact Hrun |].
  rewrite Hrun. cbn. discriminate.
Qed.

Lemma main_missing_file_witness :
  path_exists sample_world "missing.bmp" = false /\
  run (main sample_world "missing.bmp")
  = (Exited 1,
     mkConsole ["Ошибка: Файл '" +++ "missing.bmp" +++ "' не найден"] []) /\
  exit_status (fst (run (main sample_world "missing.bmp"))) <> 0%Z.
Proof.
  split; [reflexivity |].
  apply (main_missing_file sample_world "missing.bmp"). reflexivity.
Defined.

(** C9 as the claim states it fails: for a missing file the message is
    on standard output and standard error stays empty. *)
Lemma missing_file_message_on_stdout :
  path_exists sample_world "missing.bmp" = false /\
  stderr (snd (run (main sample_world "missing.bmp"))) = [] /\
  stdout (snd (run (main sample_world "missing.bmp")))
  = ["Ошибка: Файл 'missing.bmp' не найден"].
Proof. vm_compute. repeat split. Qed.

(** ** The rows of the C literal *)

Lemma str_app_assoc (a b c : string) : (a +++ b) +++ c = a +++ b +++ c.
Proof. induction a as [| ch a IH]; cbn; [reflexivity | now rewrite IH]. Qed.

Lemma str_app_nil_r (a : string) : a +++ EmptyString = a.
Proof. induction a as [| ch a IH]; cbn; [reflexivity | now rewrite IH]. Qed.

Lemma concat_empty_cons (x : string) (xs : list string) :
  String.concat EmptyString (x :: xs) = x +++ String.concat EmptyString xs.
Proof.
  destruct xs as [| y xs]; cbn; [now rewrite str_app_nil_r | reflexivity].
Qed.

Section Literal.

Variable byte_array : list Z.

Lemma count_spec (k : nat) :
  (k < row_count byte_array <-> 16 * k < length byte_array) /\
  (S k < row_count byte_array <-> 16 * k + 16 < length byte_array).
Proof.
  unfold row_count.
  pose proof (Nat.div_mod_eq (length byte_array + 15) 16) as Hdiv.
  pose proof (Nat.mod_upper_bound (length byte_array + 15) 16 ltac:(lia)) as Hr.
  lia.
Qed.

Lemma line_body_row (k : nat) (c_code : string) :
  line_body byte_array (k * 16) c_code
  = c_code +++ literal_row byte_array (row_count byte_array) k.
Proof.
  unfold line_body, literal_row, bytes_per_line.
  rewrite (Nat.mul_comm k 16).
  destruct (count_spec k) as [_ Hlast].
  destruct (Nat.ltb_spec (16 * k + 16) (length byte_array));
    destruct (Nat.ltb_spec (S k) (row_count byte_array)); try lia;
    now rewrite ?str_app_assoc.
Qed.

Lemma emit_lines_rows (rows : list nat) (c_code : string) :
  fold_left (fun c_code i => line_body byte_array i c_code)
    (map (fun k => k * 16) rows) c_code
  = c_code +++
    String.concat EmptyString
      (map (literal_row byte_array (row_count byte_array)) rows).
Proof.
  revert c_code. induction rows as [| k rows IH]; intros c_code.
  - cbn. now rewrite str_app_nil_r.
  - cbn [map fold_left]. rewrite IH, line_body_row, concat_empty_cons.
    now rewrite str_app_assoc.
Qed.

Lemma slice_length (k : nat) :
  length (slice byte_array (16 * k) (16 * k + 16))
  = Nat.min 16 (length byte_array - 16 * k).
Proof.
  unfold slice. rewrite length_firstn, length_skipn.
  replace (16 * k + 16 - 16 * k) with 16 by lia. reflexivity.
Qed.

End Literal.

Lemma concat_slices (n : nat) (l : list Z) :
  (length l + 15) / 16 = n ->
  concat (map (fun k => slice l (16 * k) (16 * k + 16)) (seq 0 n)) = l.
Proof.
  revert l. induction n as [| n IH]; intros l Hn.
  - destruct l as [| b l]; [reflexivity |].
    pose proof (Nat.div_mod_eq (length (b :: l) + 15) 16) as Hdiv.
    pose proof (Nat.mod_upper_bound (length (b :: l) + 15) 16 ltac:(lia)).
    cbn [length] in *. lia.
  - cbn [seq map concat]. rewrite <- seq_shift, map_map.
    transitivity (firstn 16 l ++ skipn 16 l); [| apply firstn_skipn].
    f_equal.
    rewrite <- (IH (skipn 16 l)).
    + f_equal. apply map_ext. intros k. unfold slice.
      rewrite skipn_skipn.
      replace (16 * S k) with (16 * k + 16) by lia.
      f_equal. lia.
    + rewrite length_skipn.
      pose proof (Nat.div_mod_eq (length l + 15) 16) as Hdiv.
      pose proof (Nat.mod_upper_bound (length l + 15) 16 ltac:(lia)).
      pose proof (Nat.div_mod_eq (length l - 16 + 15) 16) as Hdiv'.
      pose proof (Nat.mod_upper_bound (length l - 16 + 15) 16 ltac:(lia)).
      lia.
Qed.

(** A byte is printed as [0x] and two upper-case hexadecimal digits. *)
Lemma hex_literal_byte (b : Z) :
  (0 <= b < 256)%Z ->
  hex_literal b
  = String "0" (String "x"
      (String (hex_digit (b / 16)) (String (hex_digit (b mod 16)) EmptyString))).
Proof.
  intros Hb.
  assert (Hall :
    forallb
      (fun n =>
         String.eqb (hex_literal (Z.of_nat n))
           (String "0" (String "x"
              (String (hex_digit (Z.of_nat n / 16))
                 (String (hex_digit (Z.of_nat n mod 16)) EmptyString)))))
      (seq 0 256) = true) by (vm_compute; reflexivity).
  rewrite forallb_forall in Hall.
  specialize (Hall (Z.to_nat b)). rewrite Z2Nat.id in Hall by lia.
  apply String.eqb_eq, Hall, in_seq. lia.
Qed.

(** C8. For every byte sequence the loop of lines 69-76 appends to
    [c_code] one row per group of 16 bytes, in order: row [k] is four
    spaces, the values of bytes [16 * k] to [16 * k + 15] each as [0x]
    and two upper-case hexadecimal digits, separated by a comma and a
    space, then a comma on every row but the last, then a line feed.
    Every row but the last holds 16 values; 1024 bytes give 64 rows and
    the 64th has no trailing comma. *)
Theorem literal_rows_format (byte_array : list Z) (c_code : string) :
  exists lines : list string,
    emit_lines byte_array c_code = c_code +++ String.concat EmptyString lines /\
    length lines = (length byte_array + 15) / 16 /\
    concat (map (fun k => slice byte_array (16 * k) (16 * k + 16))
              (seq 0 (length lines))) = byte_array /\
    (forall k : nat, k < length lines ->
       let values := slice byte_array (16 * k) (16 * k + 16) in
       nth_error lines k
       = Some ("    " +++ String.concat ", " (map hex_literal values) +++
               (if S k <? length lines then "," else EmptyString) +++ nl) /\
       1 <= length values <= 16 /\
       (S k < length lines -> length values = 16)) /\
    (forall b : Z, (0 <= b < 256)%Z ->
       hex_literal b
       = String "0" (String "x"
           (String (hex_digit (b / 16))
              (String (hex_digit (b mod 16)) EmptyString)))) /\
    (length byte_array = 1024 ->
     length lines = 64 /\
     nth_error lines 63
     = Some ("    " +++
             String.concat ", " (map hex_literal (slice byte_array 1008 1024)) +++
             nl)).
Proof.
  set (count := row_count byte_array).
  assert (Hcount : length (map (literal_row byte_array count) (seq 0 count)) = count)
    by now rewrite length_map, length_seq.
  assert (Hrow : forall k : nat, k < count ->
            nth_error (map (literal_row byte_array count) (seq 0 count)) k
            = Some (literal_row byte_array count k)).
  { intros k Hk. rewrite nth_error_map, nth_error_seq.
    destruct (Nat.ltb_spec k count); [reflexivity | lia]. }
  exists (map (literal_row byte_array count) (seq 0 count)).
  rewrite Hcount.
  split.
  { unfold emit_lines, range_step, bytes_per_line.
    replace (length byte_array + 16 - 1) with (length byte_array + 15) by lia.
    apply emit_lines_rows. }
  split; [reflexivity |].
  split; [now apply concat_slices |].
  split.
  { intros k Hk values.
    split; [now apply Hrow |].
    unfold values. rewrite slice_length.
    destruct (count_spec byte_array k) as [Hin Hfull].
    fold count in Hin, Hfull. lia. }
  split; [exact hex_literal_byte |].
  intros Hlen.
  assert (Hc : count = 64) by (unfold count, row_count; now rewrite Hlen).
  split; [exact Hc |].
  rewrite Hrow by lia. unfold literal_row. rewrite Hc. reflexivity.
Qed.

Lemma literal_rows_format_witness :
  exists lines : list string,
    emit_lines (map Z.of_nat (seq 0 18)) EmptyString
    = EmptyString +++ String.concat EmptyString lines /\
    length lines = 2 /\
    nth_error lines 0
    = Some ("    0x00, 0x01, 0x02, 0x03, 0x04, 0x05, 0x06, 0x07, " +++
            "0x08, 0x09, 0x0A, 0x0B, 0x0C, 0x0D, 0x0E, 0x0F," +++ nl) /\
    nth_error lines 1 = Some ("    0x10, 0x11" +++ nl).
Proof.
  destruct (literal_rows_format (map Z.of_nat (seq 0 18)) EmptyString)
    as (lines & Hemit & Hlen & _ & Hrows & _).
  change (length lines = 2) in Hlen.
  exists lines.
  split; [exact Hemit |].
  split; [exact Hlen |].
  rewrite Hlen in Hrows.
  split.
  - destruct (Hrows 0 ltac:(lia)) as [Hrow _]. exact Hrow.
  - destruct (Hrows 1 ltac:(lia)) as [Hrow _]. exact Hrow.
Defined.

(** * Further properties of the packing step *)

(** ** Failures of the packing loops *)

Lemma for_in_guarded {S : Type} (body : nat -> S -> result S)
  (P : nat -> Prop) (Q : S -> Prop) (e : exception) :
  (forall i s, P i -> Q s ->
     body i s = Raise e \/ exists s', body i s = OK s' /\ Q s') ->
  forall (r : list nat) (s : S),
    Forall P r -> Q s ->
    for_in r body s = Raise e \/ exists s', for_in r body s = OK s' /\ Q s'.
Proof.
  intros Hbody r. induction r as [| i r IH]; intros s Hr Hs.
  - right. exists s. split; [reflexivity | exact Hs].
  - inversion Hr as [| ? ? Hi Hr']; subst.
    cbn [for_in].
    destruct (Hbody i s Hi Hs) as [Hraise | (s' & Hrun & Hq)].
    + left. now rewrite Hraise.
    + rewrite Hrun, bind_OK. now apply IH.
Qed.

Lemma getitem_index_error (img : Image) (x y : nat) :
  getitem img x y = Raise (IndexError "image index out of range") \/
  exists v : Z, getitem img x y = OK v.
Proof.
  unfold getitem. destruct (size img) as [w h].
  destruct ((x <? w) && (y <? h)); [| now left].
  destruct (nth_error (im img) y) as [row |]; [| now left].
  destruct (nth_error row x) as [v |]; [right; now exists v | now left].
Qed.

Lemma lor_below_pow2 (a b n : Z) :
  (0 <= n -> 0 <= a < 2 ^ n -> 0 <= b < 2 ^ n -> 0 <= Z.lor a b < 2 ^ n)%Z.
Proof.
  intros Hn Ha Hb.
  assert (Hnonneg : (0 <= Z.lor a b)%Z) by (apply Z.lor_nonneg; lia).
  split; [exact Hnonneg |].
  assert (Hmod : (Z.lor a b mod 2 ^ n = Z.lor a b)%Z).
  { apply Z.bits_inj'. intros i Hi.
    destruct (Z.lt_ge_cases i n) as [Hlt | Hge].
    - now rewrite Z.mod_pow2_bits_low.
    - rewrite Z.mod_pow2_bits_high by lia.
      rewrite Z.lor_spec.
      rewrite <- (Z.mod_small a (2 ^ n)), <- (Z.mod_small b (2 ^ n)) by lia.
      now rewrite !Z.mod_pow2_bits_high by lia. }
  rewrite <- Hmod. apply Z.mod_pos_bound. apply Z.pow_pos_nonneg; lia.
Qed.

Lemma shifted_bit_below_256 (v : Z) (bit : nat) :
  bit < 8 -> (0 <= Z.shiftl (bit_value v) (Z.of_nat bit) < 2 ^ 8)%Z.
Proof.
  intros Hbit. unfold bit_value.
  do 8 (destruct bit as [| bit];
        [destruct (v =? 0)%Z; cbn; lia |]).
  lia.
Qed.

Lemma bit_loop_byte_or_index_error (img : Image) (height page x : nat) :
  for_in (range 8) (bit_body img height page x) 0%Z
  = Raise (IndexError "image index out of range") \/
  exists byte_value : Z,
    for_in (range 8) (bit_body img height page x) 0%Z = OK byte_value /\
    (0 <= byte_value < 2 ^ 8)%Z.
Proof.
  apply (for_in_guarded (bit_body img height page x) (fun bit => bit < 8)
           (fun byte_value => (0 <= byte_value < 2 ^ 8)%Z)).
  - intros bit byte_value Hbit Hbyte. unfold bit_body.
    destruct (page * 8 + bit <? height).
    + destruct (getitem_index_error img x (page * 8 + bit)) as [-> | (v & ->)].
      * now left.
      * right. eexists. split; [reflexivity |].
        apply lor_below_pow2; [lia | exact Hbyte |].
        now apply shifted_bit_below_256.
    + right. exists byte_value. now split.
  - apply Forall_seq_lt.
  - cbn. lia.
Qed.

(** Whatever the image, also one whose storage is shorter than its size
    says, the packing step ends in one of two ways: with a sequence of
    bytes, each in 0..255, or with the [IndexError] of the pixel access.
    The [ValueError] of [bytearray.append] is never raised. *)
Theorem pack_bytes_or_index_error (img : Image) :
  pack img = Raise (IndexError "image index out of range") \/
  exists byte_array : list Z,
    pack img = OK byte_array /\
    Forall (fun b => (0 <= b < 256)%Z) byte_array.
Proof.
  unfold pack. destruct (size img) as [width height].
  apply (for_in_guarded (page_body img width height) (fun _ => True)
           (Forall (fun b => (0 <= b < 256)%Z))).
  - intros page acc _ Hacc. unfold page_body.
    apply (for_in_guarded (column_body img height page) (fun _ => True)
             (Forall (fun b => (0 <= b < 256)%Z))).
    + intros x acc' _ Hacc'. unfold column_body.
      destruct (bit_loop_byte_or_index_error img height page x)
        as [-> | (byte_value & -> & Hbyte)].
      * now left.
      * right. rewrite bind_OK.
        change (2 ^ 8)%Z with 256%Z in Hbyte.
        rewrite append_byte by exact Hbyte.
        eexists. split; [reflexivity |].
        apply Forall_app. split; [exact Hacc' |].
        constructor; [exact Hbyte | constructor].
    + apply Forall_forall. intros; exact I.
    + exact Hacc.
  - apply Forall_forall. intros; exact I.
  - constructor.
Qed.

(** A row missing from the storage makes the packing step raise. *)
Example pack_short_storage :
  pack (mkImage (2, 8) (repeat [0; 0]%Z 7))
  = Raise (IndexError "image index out of range").
Proof. reflexivity. Qed.

(** ** Round trip and losslessness for every geometry *)

(** For every width and every height that is a whole number of pages,
    unpacking the packed bytes gives back the lit/unlit pattern of the
    grid. *)
Theorem unpack_pack_any_size (img : Image) (width height : nat)
  (Hwf : well_formed img = true) (Hsize : size img = (width, height))
  (Hpages : height mod 8 = 0) :
  exists byte_array : list Z,
    pack img = OK byte_array /\
    unpack width height byte_array = map (map lit) (im img).
Proof.
  exists (layout img width height).
  split; [now apply pack_layout | now apply unpack_layout].
Qed.

Lemma unpack_pack_any_size_witness :
  well_formed (uniform 3 16 255) = true /\
  size (uniform 3 16 255) = (3, 16) /\
  16 mod 8 = 0 /\
  exists byte_array : list Z,
    pack (uniform 3 16 255) = OK byte_array /\
    unpack 3 16 byte_array = map (map lit) (im (uniform 3 16 255)).
Proof.
  split; [reflexivity |].
  split; [reflexivity |].
  split; [reflexivity |].
  apply (unpack_pack_any_size (uniform 3 16 255) 3 16); reflexivity.
Defined.

Lemma lit_injective_mode_1 (rows1 rows2 : list (list Z)) :
  forallb (forallb (fun v => (v =? 0)%Z || (v =? 255)%Z)) rows1 = true ->
  forallb (forallb (fun v => (v =? 0)%Z || (v =? 255)%Z)) rows2 = true ->
  map (map lit) rows1 = map (map lit) rows2 ->
  rows1 = rows2.
Proof.
  assert (Hrow : forall r1 r2 : list Z,
            forallb (fun v => (v =? 0)%Z || (v =? 255)%Z) r1 = true ->
            forallb (fun v => (v =? 0)%Z || (v =? 255)%Z) r2 = true ->
            map lit r1 = map lit r2 -> r1 = r2).
  { induction r1 as [| v1 r1 IH]; intros [| v2 r2] H1 H2 Heq;
      try discriminate; [reflexivity |].
    cbn in H1, H2, Heq.
    apply andb_prop in H1. destruct H1 as [Hv1 H1].
    apply andb_prop in H2. destruct H2 as [Hv2 H2].
    injection Heq as Hlit Heq. f_equal; [| now apply IH].
    unfold lit in Hlit.
    apply orb_prop in Hv1. apply orb_prop in Hv2.
    destruct Hv1 as [Hv1 | Hv1]; destruct Hv2 as [Hv2 | Hv2];
      apply Z.eqb_eq in Hv1, Hv2; subst; try reflexivity;
      cbn in Hlit; discriminate. }
  revert rows2. induction rows1 as [| r1 rows1 IH]; intros [| r2 rows2] H1 H2 Heq;
    try discriminate; [reflexivity |].
  cbn in H1, H2, Heq.
  apply andb_prop in H1. destruct H1 as [Hr1 H1].
  apply andb_prop in H2. destruct H2 as [Hr2 H2].
  injection Heq as Hhead Heq.
  f_equal; [now apply Hrow | now apply IH].
Qed.

(** Packing loses nothing of a 1-bit image: two well-formed images of
    mode ['1'], of one size whose height is a whole number of pages (as
    128x64 is), with the same packed bytes are the same image. *)
Theorem pack_lossless (img1 img2 : Image) (width height : nat)
  (Hwf1 : well_formed img1 = true) (Hsize1 : size img1 = (width, height))
  (Hmode1 : mode_1 img1 = true)
  (Hwf2 : well_formed img2 = true) (Hsize2 : size img2 = (width, height))
  (Hmode2 : mode_1 img2 = true)
  (Hpages : height mod 8 = 0)
  (Hsame : pack img1 = pack img2) :
  img1 = img2.
Proof.
  rewrite (pack_layout img1 width height Hwf1 Hsize1) in Hsame.
  rewrite (pack_layout img2 width height Hwf2 Hsize2) in Hsame.
  injection Hsame as Hlayout.
  pose proof (unpack_layout img1 width height Hwf1 Hsize1 Hpages) as Hu1.
  pose proof (unpack_layout img2 width height Hwf2 Hsize2 Hpages) as Hu2.
  rewrite Hlayout, Hu2 in Hu1.
  unfold mode_1 in Hmode1, Hmode2.
  destruct img1 as [size1 im1], img2 as [size2 im2].
  cbn [size im] in Hsize1, Hsize2, Hmode1, Hmode2, Hu1.
  subst size1 size2. f_equal.
  symmetry. apply lit_injective_mode_1; assumption.
Qed.

Lemma pack_lossless_witness :
  well_formed dark_but_corner = true /\ mode_1 dark_but_corner = true /\
  size dark_but_corner = (128, 64) /\ 64 mod 8 = 0 /\
  pack dark_but_corner = pack dark_but_corner /\
  dark_but_corner = dark_but_corner.
Proof.
  split; [vm_compute; reflexivity |].
  split; [vm_compute; reflexivity |].
  split; [reflexivity |].
  split; [reflexivity |].
  split; [reflexivity |].
  apply (pack_lossless dark_but_corner dark_but_corner 128 64);
    solve [reflexivity | vm_compute; reflexivity].
Defined.

(** ** Rows below the last whole page *)

(** The packing step reads whole pages only: two well-formed images of
    one size that agree on the rows [0 .. 8 * (height / 8) - 1] pack to
    the same bytes, whatever the rows of a last partial page hold. *)
Theorem pack_ignores_partial_page (img1 img2 : Image) (width height : nat)
  (Hwf1 : well_formed img1 = true) (Hsize1 : size img1 = (width, height))
  (Hwf2 : well_formed img2 = true) (Hsize2 : size img2 = (width, height))
  (Hagree : forall x y : nat, x < width -> y < 8 * (height / 8) ->
     getitem img1 x y = getitem img2 x y) :
  pack img1 = pack img2.
Proof.
  rewrite (pack_layout img1 width height Hwf1 Hsize1).
  rewrite (pack_layout img2 width height Hwf2 Hsize2).
  f_equal. unfold layout. rewrite !flat_map_concat_map. f_equal.
  apply map_ext_in. intros page Hpage. apply in_seq in Hpage.
  apply map_ext_in. intros x Hx. apply in_seq in Hx.
  rewrite !column_byte_lor_bits. apply lor_bits_ext.
  intros b Hb. f_equal.
  pose proof (Nat.div_mod_eq height 8) as Hdiv.
  assert (Hy : page * 8 + b < 8 * (height / 8)) by lia.
  pose proof (Hagree x (page * 8 + b) ltac:(lia) Hy) as Hpix.
  rewrite (getitem_pixel img1 width height Hwf1 Hsize1) in Hpix by lia.
  rewrite (getitem_pixel img2 width height Hwf2 Hsize2) in Hpix by lia.
  now injection Hpix.
Qed.

Lemma pack_ignores_partial_page_witness :
  well_formed (mkImage (2, 9) (repeat [0; 255]%Z 8 ++ [[0; 0]%Z])) = true /\
  well_formed (mkImage (2, 9) (repeat [0; 255]%Z 8 ++ [[255; 255]%Z])) = true /\
  pack (mkImage (2, 9) (repeat [0; 255]%Z 8 ++ [[0; 0]%Z]))
  = pack (mkImage (2, 9) (repeat [0; 255]%Z 8 ++ [[255; 255]%Z])).
Proof.
  split; [reflexivity |].
  split; [reflexivity |].
  apply (pack_ignores_partial_page _ _ 2 9); try reflexivity.
  intros x y Hx Hy. change (8 * (9 / 8)) with 8 in Hy.
  do 2 (destruct x as [| x]; [do 8 (destruct y as [| y]; [reflexivity |]); lia |]).
  lia.
Defined.

(** * The preview and the literal against the packed bytes *)

Lemma fold_left_append (f : nat -> string) (l : list nat) (acc : string) :
  fold_left (fun line x => line +++ f x) l acc
  = acc +++ String.concat EmptyString (map f l).
Proof.
  revert acc. induction l as [| x l IH]; intros acc.
  - cbn. now rewrite str_app_nil_r.
  - cbn [fold_left map]. rewrite IH, concat_empty_cons.
    now rewrite str_app_assoc.
Qed.

Lemma unpack_row (width height y : nat) (byte_array : list Z) :
  y < height ->
  nth y (unpack width height byte_array) []
  = map (fun x =>
           Z.testbit (nth ((y / 8) * width + x) byte_array 0%Z)
             (Z.of_nat (y mod 8)))
      (seq 0 width).
Proof.
  intros Hy. unfold unpack.
  apply nth_error_nth.
  rewrite nth_error_map, nth_error_seq.
  destruct (Nat.ltb_spec y height); [reflexivity | lia].
Qed.

(** The preview shows what the literal holds. For every 128x64 grid and
    every row [y], the line that the preview loop builds is the row of
    the unpacked bytes drawn glyph by glyph: a block where the bit is 1,
    a space where it is 0, for all 128 columns. *)
Theorem preview_line_shows_packed_bits (img : Image) (y : nat)
  (Hwf : well_formed img = true) (Hsize : size img = (128, 64))
  (Hy : y < 64) :
  exists byte_array : list Z,
    pack img = OK byte_array /\
    length (nth y (unpack 128 64 byte_array) []) = 128 /\
    preview_line img 128 y
    = OK (String.concat EmptyString
            (map glyph (nth y (unpack 128 64 byte_array) []))).
Proof.
  exists (layout img 128 64).
  split; [now apply pack_layout |].
  rewrite unpack_row by exact Hy.
  split; [now rewrite length_map, length_seq |].
  rewrite (preview_line_row img 128 64 Hwf Hsize y Hy).
  f_equal. unfold preview_row.
  rewrite (fold_left_append (fun x => if lit (pixel img x y) then "█" else " ")).
  cbn [String.append]. f_equal.
  rewrite map_map. apply map_ext_in. intros x Hx. apply in_seq in Hx.
  rewrite layout_pixel_bit by (try reflexivity; lia).
  reflexivity.
Qed.

Lemma preview_line_shows_packed_bits_witness :
  well_formed dark_but_corner = true /\ size dark_but_corner = (128, 64) /\
  exists byte_array : list Z,
    pack dark_but_corner = OK byte_array /\
    length (nth 0 (unpack 128 64 byte_array) []) = 128 /\
    preview_line dark_but_corner 128 0
    = OK (String.concat EmptyString
            (map glyph (nth 0 (unpack 128 64 byte_array) []))).
Proof.
  split; [vm_compute; reflexivity |].
  split; [reflexivity |].
  apply (preview_line_shows_packed_bits dark_but_corner 0);
    solve [vm_compute; reflexivity | lia].
Defined.

(** ** Reading the literal back *)

Lemma digit_value_hex_digit (d : Z) :
  (0 <= d < 16)%Z -> digit_value (hex_digit d) = d.
Proof.
  intros Hd.
  assert (Hall :
    forallb (fun n => (digit_value (hex_digit (Z.of_nat n)) =? Z.of_nat n)%Z)
      (seq 0 16) = true) by (vm_compute; reflexivity).
  rewrite forallb_forall in Hall.
  specialize (Hall (Z.to_nat d)). rewrite Z2Nat.id in Hall by lia.
  apply Z.eqb_eq, Hall, in_seq. lia.
Qed.

Lemma hex_digit_not_x (d : Z) : Ascii.eqb (hex_digit d) "x" = false.
Proof.
  unfold hex_digit.
  destruct (Z.to_nat d) as [| n]; [reflexivity |].
  do 15 (destruct n as [| n]; [reflexivity |]).
  reflexivity.
Qed.

Lemma read_values_hex_literal (b : Z) (rest : string) :
  (0 <= b < 256)%Z ->
  read_values (hex_literal b +++ rest) = b :: read_values rest.
Proof.
  intros Hb. rewrite (hex_literal_byte b Hb).
  cbn [String.append read_values]. cbn [Ascii.eqb Bool.eqb].
  rewrite !digit_value_hex_digit.
  - f_equal. pose proof (Z.div_mod b 16 ltac:(lia)). lia.
  - apply Z.mod_pos_bound. lia.
  - split; [apply Z.div_pos; lia | apply Z.div_lt_upper_bound; lia].
Qed.

Lemma read_values_joined (values : list Z) (rest : string) :
  Forall (fun b => (0 <= b < 256)%Z) values ->
  read_values (String.concat ", " (map hex_literal values) +++ rest)
  = values ++ read_values rest.
Proof.
  induction 1 as [| b values Hb Hvalues IH]; [reflexivity |].
  destruct values as [| b' values].
  - cbn [map String.concat]. now rewrite read_values_hex_literal.
  - change (String.concat ", " (map hex_literal (b :: b' :: values)))
      with (hex_literal b +++ ", " +++
            String.concat ", " (map hex_literal (b' :: values))).
    rewrite !str_app_assoc, read_values_hex_literal by exact Hb.
    change (read_values (", " +++ ?s)) with (read_values s).
    rewrite IH. reflexivity.
Qed.

Lemma Forall_slice {A : Type} (P : A -> Prop) (l : list A) (i j : nat) :
  Forall P l -> Forall P (slice l i j).
Proof.
  intros Hl. unfold slice.
  rewrite <- (firstn_skipn i l) in Hl.
  apply Forall_app in Hl. destruct Hl as [_ Hl].
  rewrite <- (firstn_skipn (j - i) (skipn i l)) in Hl.
  apply Forall_app in Hl. now destruct Hl as [Hl _].
Qed.

Lemma read_values_row (byte_array : list Z) (count k : nat) (rest : string) :
  Forall (fun b => (0 <= b < 256)%Z) byte_array ->
  read_values (literal_row byte_array count k +++ rest)
  = slice byte_array (16 * k) (16 * k + 16) ++ read_values rest.
Proof.
  intros Hbytes. unfold literal_row.
  rewrite !str_app_assoc.
  change (read_values ("    " +++ ?s)) with (read_values s).
  rewrite read_values_joined by now apply Forall_slice.
  f_equal. destruct (S k <? count); reflexivity.
Qed.

Lemma read_values_rows (byte_array : list Z) (count : nat) (rows : list nat) :
  Forall (fun b => (0 <= b < 256)%Z) byte_array ->
  read_values
    (String.concat EmptyString (map (literal_row byte_array count) rows))
  = concat (map (fun k => slice byte_array (16 * k) (16 * k + 16)) rows).
Proof.
  intros Hbytes. induction rows as [| k rows IH]; [reflexivity |].
  cbn [map concat]. rewrite concat_empty_cons, read_values_row by exact Hbytes.
  now rewrite IH.
Qed.

(** The literal loses no byte. For every sequence of bytes (values in
    0..255, as a [bytearray] holds), reading the rows that lines 69-76
    emit back, value by value, gives the sequence again, in order. *)
Theorem read_values_emit_lines (byte_array : list Z)
  (Hbytes : Forall (fun b => (0 <= b < 256)%Z) byte_array) :
  read_values (emit_lines byte_array EmptyString) = byte_array.
Proof.
  unfold emit_lines, range_step, bytes_per_line.
  replace (length byte_array + 16 - 1) with (length byte_array + 15) by lia.
  rewrite emit_lines_rows. cbn [String.append].
  rewrite read_values_rows by exact Hbytes.
  now apply concat_slices.
Qed.

Lemma read_values_emit_lines_witness :
  Forall (fun b => (0 <= b < 256)%Z) (map Z.of_nat (seq 0 40)) /\
  read_values (emit_lines (map Z.of_nat (seq 0 40)) EmptyString)
  = map Z.of_nat (seq 0 40).
Proof.
  assert (Hbytes : Forall (fun b => (0 <= b < 256)%Z) (map Z.of_nat (seq 0 40))).
  { apply Forall_forall. intros b Hb.
    apply in_map_iff in Hb. destruct Hb as (n & <- & Hn).
    apply in_seq in Hn. lia. }
  split; [exact Hbytes |].
  apply (read_values_emit_lines (map Z.of_nat (seq 0 40)) Hbytes).
Defined.

(** * Further properties of the conversion and the driver *)

(** ** Output and outcome of the process monad *)

Lemma quiet_ret {A : Type} (a : A) : quiet (ret a).
Proof.
  exists (Done a), []. split; [| discriminate].
  intros [out err]. cbn. now rewrite app_nil_r.
Qed.

Lemma quiet_print (s : string) : quiet (print s).
Proof.
  exists (Done tt), [s]. split; [| discriminate]. intros con. reflexivity.
Qed.

Lemma quiet_lift {A : Type} (r : result A) : quiet (lift r).
Proof.
  destruct r as [a | e].
  - exists (Done a), []. split; [| discriminate].
    intros [out err]. cbn. now rewrite app_nil_r.
  - exists (Raised e), []. split; [| discriminate].
    intros [out err]. cbn. now rewrite app_nil_r.
Qed.

Lemma quiet_bind {A B : Type} (c : prog A) (k : A -> prog B) :
  quiet c -> (forall a : A, quiet (k a)) -> quiet (x <- c ;; k x).
Proof.
  intros (o1 & out1 & Hc & Hstay) Hk.
  destruct o1 as [a | e | status].
  - destruct (Hk a) as (o2 & out2 & Hka & Hstay2).
    exists o2, (out1 ++ out2). split; [| exact Hstay2].
    intros con. cbn. rewrite Hc, Hka. cbn. now rewrite app_assoc.
  - exists (Raised e), out1. split; [| discriminate].
    intros con. cbn. now rewrite Hc.
  - now elim (Hstay status).
Qed.

Lemma quiet_for_in {S : Type} (body : nat -> S -> prog S) (r : list nat) (s : S) :
  (forall i s', quiet (body i s')) -> quiet (for_in r body s).
Proof.
  intros Hbody. revert s. induction r as [| i r IH]; intros s.
  - apply quiet_ret.
  - cbn [for_in]. apply quiet_bind; [apply Hbody | exact IH].
Qed.

Lemma quiet_preview (pixels : Image) (width height : nat) :
  quiet (preview pixels width height).
Proof.
  unfold preview.
  apply quiet_bind; [apply quiet_print | intros _].
  apply quiet_bind; [apply quiet_print | intros _].
  apply quiet_bind; [| intros _; apply quiet_print].
  apply quiet_for_in. intros y _.
  apply quiet_bind; [apply quiet_lift | intros line; apply quiet_print].
Qed.

(** The conversion prints, then ends normally or exits with status 1; it
    lets no exception out and does not touch standard error. *)
Lemma convert_ends (W : World) (input_file array_name : string) :
  exists (o : outcome unit) (out : list string),
    ends (convert_bmp_to_ssd1306_array W input_file array_name) o out /\
    (o = Done tt \/ o = Exited 1).
Proof.
  unfold convert_bmp_to_ssd1306_array.
  match goal with
  | |- exists o out, ends (try_except ?b ?h) o out /\ _ =>
      assert (Hbody : quiet b)
  end.
  { apply quiet_bind; [apply quiet_lift | intros img].
    apply quiet_bind.
    - destruct (negb (size_eqb (source_size W img) (128, 64))).
      + apply quiet_bind; [apply quiet_print | intros _].
        apply quiet_bind; [apply quiet_print | intros _].
        apply quiet_ret.
      + apply quiet_ret.
    - intros img'. cbv zeta.
      destruct (size (convert_1 W img')) as [width height].
      apply quiet_bind; [apply quiet_lift | intros byte_array].
      do 5 (apply quiet_bind; [apply quiet_print | intros _]).
      apply quiet_preview. }
  destruct Hbody as (o & out & Hends & Hstay).
  destruct o as [[] | e | status].
  - exists (Done tt), out. split; [| now left].
    intros con. unfold try_except. now rewrite Hends.
  - exists (Exited 1), (out ++ ["Ошибка: " +++ str_of_exception e]).
    split; [| now right].
    intros con. unfold try_except. rewrite Hends. cbn.
    now rewrite app_assoc.
  - now elim (Hstay status).
Qed.

(** ** The conversion *)

(** When [Image.open] raises, the conversion prints one line, the text
    of the exception after the error prefix, and exits with status 1:
    no warning, no literal, no preview. *)
Theorem convert_open_error (W : World) (input_file array_name : string)
  (e : exception)
  (Hopen : Image_open W input_file = Raise e) :
  run (convert_bmp_to_ssd1306_array W input_file array_name)
  = (Exited 1, mkConsole ["Ошибка: " +++ str_of_exception e] []).
Proof.
  unfold run, convert_bmp_to_ssd1306_array, try_except. cbn.
  rewrite Hopen. reflexivity.
Qed.

Lemma convert_open_error_witness :
  Image_open unreadable_world "notes.txt"
  = Raise (OSError "cannot identify image file 'notes.txt'") /\
  run (convert_bmp_to_ssd1306_array unreadable_world "notes.txt" "image_data")
  = (Exited 1,
     mkConsole
       ["Ошибка: " +++
        str_of_exception (OSError "cannot identify image file 'notes.txt'")]
       []).
Proof.
  split; [reflexivity |].
  apply (convert_open_error unreadable_world "notes.txt" "image_data").
  reflexivity.
Defined.

(** What the conversion prints when the file opens, for both branches of
    the size test. *)
Lemma convert_emitted (W : World) (HW : Contract W)
  (input_file array_name : string) (src : Source W) :
  Image_open W input_file = OK src ->
  let fits := size_eqb (source_size W src) (128, 64) in
  let img := convert_1 W (if fits then src else resize_LANCZOS W src (128, 64)) in
  exists byte_array : list Z,
    pack img = OK byte_array /\
    length byte_array = 1024 /\
    emits (convert_bmp_to_ssd1306_array W input_file array_name) tt
      ((if fits then []
        else ["Предупреждение: Размер изображения " +++
              str_of_size (source_size W src) +++ " не соответствует 128x64.";
              "Изображение будет масштабировано до 128x64"])
       ++ [make_c_code input_file array_name 128 64 byte_array;
           nl +++ "Успешно конвертировано!";
           "Входной файл: " +++ input_file;
           "Имя массива: " +++ array_name;
           "Размер массива: " +++ str_of_nat (length byte_array) +++ " байт"]
       ++ preview_text img 128 64).
Proof.
  intros Hopen. cbv zeta.
  destruct (size_eqb (source_size W src) (128, 64)) eqn:Heq.
  - assert (Hfits : source_size W src = (128, 64)).
    { unfold size_eqb in Heq. apply andb_prop in Heq.
      destruct Heq as [H1 H2]. apply Nat.eqb_eq in H1, H2.
      destruct (source_size W src) as [w h]. cbn in H1, H2. now subst. }
    destruct (converted_emitted W HW input_file array_name src Hfits)
      as (byte_array & Hpack & Hlen & Hrest).
    exists byte_array.
    split; [exact Hpack |]. split; [exact Hlen |].
    unfold convert_bmp_to_ssd1306_array. apply emits_try_except.
    eapply emits_eq.
    + eapply emits_bind; [apply emits_lift; exact Hopen |].
      cbv beta. rewrite Heq. cbn [negb].
      eapply emits_bind; [apply emits_ret | exact Hrest].
    + reflexivity.
  - assert (Hfits : source_size W (resize_LANCZOS W src (128, 64)) = (128, 64))
      by apply (resize_size W HW).
    destruct (converted_emitted W HW input_file array_name _ Hfits)
      as (byte_array & Hpack & Hlen & Hrest).
    exists byte_array.
    split; [exact Hpack |]. split; [exact Hlen |].
    unfold convert_bmp_to_ssd1306_array. apply emits_try_except.
    eapply emits_eq.
    + eapply emits_bind; [apply emits_lift; exact Hopen |].
      cbv beta. rewrite Heq. cbn [negb].
      eapply emits_bind; [| exact Hrest].
      eapply emits_bind; [apply emits_print |].
      eapply emits_bind; [apply emits_print |].
      apply emits_ret.
    + reflexivity.
Qed.

(** An image that already has the display size is converted as it is:
    no warning is printed and nothing is resampled; the process prints
    the literal of the 1024 packed bytes, the summary and the preview,
    and ends normally. *)
Theorem convert_same_size (W : World) (input_file array_name : string)
  (src : Source W)
  (HW : Contract W)
  (Hopen : Image_open W input_file = OK src)
  (Hfits : source_size W src = (128, 64)) :
  exists byte_array : list Z,
    pack (convert_1 W src) = OK byte_array /\
    length byte_array = 1024 /\
    run (convert_bmp_to_ssd1306_array W input_file array_name)
    = (Done tt,
       mkConsole
         ([make_c_code input_file array_name 128 64 byte_array;
           nl +++ "Успешно конвертировано!";
           "Входной файл: " +++ input_file;
           "Имя массива: " +++ array_name;
           "Размер массива: " +++ str_of_nat (length byte_array) +++ " байт"]
          ++ preview_text (convert_1 W src) 128 64)
         []).
Proof.
  pose proof (convert_emitted W HW input_file array_name src Hopen) as Hrun.
  cbv zeta in Hrun. rewrite Hfits in Hrun.
  change (size_eqb (128, 64) (128, 64)) with true in Hrun.
  destruct Hrun as (byte_array & Hpack & Hlen & Hemits).
  exists byte_array.
  split; [exact Hpack |]. split; [exact Hlen |].
  now apply emits_run.
Qed.

Lemma convert_same_size_witness :
  Image_open sample_world "logo.bmp" = OK all_dark /\
  source_size sample_world all_dark = (128, 64) /\
  exists byte_array : list Z,
    pack (convert_1 sample_world all_dark) = OK byte_array /\
    length byte_array = 1024 /\
    run (convert_bmp_to_ssd1306_array sample_world "logo.bmp" "image_data")
    = (Done tt,
       mkConsole
         ([make_c_code "logo.bmp" "image_data" 128 64 byte_array;
           nl +++ "Успешно конвертировано!";
           "Входной файл: " +++ "logo.bmp";
           "Имя массива: " +++ "image_data";
           "Размер массива: " +++ str_of_nat (length byte_array) +++ " байт"]
          ++ preview_text (convert_1 sample_world all_dark) 128 64)
         []).
Proof.
  split; [reflexivity |].
  split; [reflexivity |].
  apply (convert_same_size sample_world "logo.bmp" "image_data" all_dark).
  - apply world_of_files_contract.
  - reflexivity.
  - reflexivity.
Defined.

(** ** The driver *)

Lemma main_on_existing (W : World) (input : string) (con : Console) :
  path_exists W input = true ->
  main W input con
  = convert_bmp_to_ssd1306_array W input "image_data"
      (mkConsole
         (stdout con ++
          (if endswith (lower input) ".bmp" then []
           else ["Предупреждение: Рекомендуется использовать BMP файлы"]))
         (stderr con)).
Proof.
  intros Hexists. unfold main. rewrite Hexists. cbn [negb].
  destruct con as [out err].
  destruct (endswith (lower input) ".bmp"); cbn [negb].
  - cbn [bind ret prog_monad stdout stderr]. now rewrite app_nil_r.
  - reflexivity.
Qed.


(** For a path that exists the driver is the conversion with the fixed
    array name [image_data], preceded by one warning line when the name
    does not end in [.bmp] (in any letter case): same outcome, same
    output after the warning. *)
Theorem main_existing_file (W : World) (input : string)
  (Hexists : path_exists W input = true) :
  run (main W input)
  = (fst (run (convert_bmp_to_ssd1306_array W input "image_data")),
     mkConsole
       ((if endswith (lower input) ".bmp" then []
         else ["Предупреждение: Рекомендуется использовать BMP файлы"])
        ++ stdout (snd (run (convert_bmp_to_ssd1306_array W input "image_data"))))
       []).
Proof.
  unfold run. rewrite main_on_existing by exact Hexists.
  destruct (convert_ends W input "image_data") as (o & out & Hends & _).
  rewrite !Hends. reflexivity.
Qed.

Lemma main_existing_file_witness :
  path_exists unreadable_world "notes.txt" = true /\
  run (main unreadable_world "notes.txt")
  = (fst (run (convert_bmp_to_ssd1306_array unreadable_world "notes.txt"
                 "image_data")),
     mkConsole
       ((if endswith (lower "notes.txt") ".bmp" then []
         else ["Предупреждение: Рекомендуется использовать BMP файлы"])
        ++ stdout
             (snd (run (convert_bmp_to_ssd1306_array unreadable_world
                          "notes.txt" "image_data"))))
       []).
Proof.
  split; [reflexivity |].
  apply (main_existing_file unreadable_world "notes.txt"). reflexivity.
Defined.

(** Whenever the file exists and opens, whatever its size, the driver
    ends normally with status 0 and among its output is the literal
    named [image_data] of exactly 1024 bytes: the packed bytes of the
    converted image, resampled first when its size is not 128x64. *)
Theorem main_converts (W : World) (input : string) (src : Source W)
  (HW : Contract W)
  (Hexists : path_exists W input = true)
  (Hopen : Image_open W input = OK src) :
  exists byte_array : list Z,
    pack (convert_1 W
            (if size_eqb (source_size W src) (128, 64) then src
             else resize_LANCZOS W src (128, 64)))
    = OK byte_array /\
    length byte_array = 1024 /\
    fst (run (main W input)) = Done tt /\
    exit_status (fst (run (main W input))) = 0%Z /\
    In (make_c_code input "image_data" 128 64 byte_array)
       (stdout (snd (run (main W input)))).
Proof.
  destruct (convert_emitted W HW input "image_data" src Hopen)
    as (byte_array & Hpack & Hlen & Hemits).
  exists byte_array.
  split; [exact Hpack |]. split; [exact Hlen |].
  unfold run. rewrite main_on_existing by exact Hexists.
  rewrite Hemits. cbn [fst snd stdout stderr empty_console exit_status].
  split; [reflexivity |]. split; [reflexivity |].
  apply in_or_app. right. apply in_or_app. right.
  apply in_or_app. left. now left.
Qed.

Lemma main_converts_witness :
  path_exists sample_world "small.bmp" = true /\
  Image_open sample_world "small.bmp" = OK small_dark /\
  exists byte_array : list Z,
    pack (convert_1 sample_world
            (if size_eqb (source_size sample_world small_dark) (128, 64)
             then small_dark
             else resize_LANCZOS sample_world small_dark (128, 64)))
    = OK byte_array /\
    length byte_array = 1024 /\
    fst (run (main sample_world "small.bmp")) = Done tt /\
    exit_status (fst (run (main sample_world "small.bmp"))) = 0%Z /\
    In (make_c_code "small.bmp" "image_data" 128 64 byte_array)
       (stdout (snd (run (main sample_world "small.bmp")))).
Proof.
  split; [reflexivity |].
  split; [reflexivity |].
  apply (main_converts sample_world "small.bmp" small_dark).
  - apply world_of_files_contract.
  - reflexivity.
  - reflexivity.
Defined.

(** * Uniform column segments *)

(** A column segment of one tone gives a byte of one tone: for every
    128x64 grid, when the eight pixels of column [x] in page [p] are all
    dark the byte at index [p * 128 + x] is 0xFF, and when none of them
    is dark it is 0x00. *)
Theorem pack_uniform_segment (img : Image) (p x : nat)
  (Hwf : well_formed img = true) (Hsize : size img = (128, 64))
  (Hp : p < 8) (Hx : x < 128) :
  exists byte_array : list Z,
    pack img = OK byte_array /\
    ((forall b : nat, b < 8 -> getitem img x (p * 8 + b) = OK 0%Z) ->
     nth_error byte_array (p * 128 + x) = Some 255%Z) /\
    ((forall b : nat, b < 8 ->
        exists v : Z, getitem img x (p * 8 + b) = OK v /\ v <> 0%Z) ->
     nth_error byte_array (p * 128 + x) = Some 0%Z).
Proof.
  exists (layout img 128 64).
  split; [now apply pack_layout |].
  rewrite (layout_nth img 128 64 p x Hp Hx), column_byte_lor_bits.
  split; intros Hall; f_equal.
  - rewrite (lor_bits_ext _ (fun _ => true) 8); [reflexivity |].
    intros b Hb. specialize (Hall b Hb).
    rewrite (getitem_pixel img 128 64 Hwf Hsize) in Hall by lia.
    injection Hall as ->. reflexivity.
  - rewrite (lor_bits_ext _ (fun _ => false) 8); [reflexivity |].
    intros b Hb. destruct (Hall b Hb) as (v & Hv & Hne).
    rewrite (getitem_pixel img 128 64 Hwf Hsize) in Hv by lia.
    injection Hv as ->. unfold lit. now apply Z.eqb_neq.
Qed.

Lemma pack_uniform_segment_witness :
  well_formed dark_but_corner = true /\ size dark_but_corner = (128, 64) /\
  exists byte_array : list Z,
    pack dark_but_corner = OK byte_array /\
    ((forall b : nat, b < 8 -> getitem dark_but_corner 1 (0 * 8 + b) = OK 0%Z) ->
     nth_error byte_array (0 * 128 + 1) = Some 255%Z) /\
    ((forall b : nat, b < 8 ->
        exists v : Z, getitem dark_but_corner 1 (0 * 8 + b) = OK v /\ v <> 0%Z) ->
     nth_error byte_array (0 * 128 + 1) = Some 0%Z).
Proof.
  split; [vm_compute; reflexivity |].
  split; [reflexivity |].
  apply (pack_uniform_segment dark_but_corner 0 1);
    solve [vm_compute; reflexivity | lia].
Defined.
